(** * Neck positions and MIDI note conversions

    A shallow embedding of [positions/neck_position.py], [utils/note2num.py]
    and [utils/num2note.py], and the properties of these functions.

    Python integers are unbounded, so they are [Z]; [//] and [%] with a
    positive divisor are [Z.div] and [Z.modulo] (both round towards minus
    infinity).  Lists are [list], [set(...)] is a [gset], the [notes]
    dictionary is a [gmap], and a raised exception is a [Raise] result. *)

From Stdlib Require Import ZArith Ascii String.
From stdpp Require Import base numbers list sorting gmap strings pretty.

Local Open Scope Z_scope.

(** ** Exceptions *)

(** The [ValueError]s that the embedded code can meet, told apart by what
    raised them (in Python: by their message). *)
Inductive value_error : Type :=
  | EmptyMax                              (* max() of an empty sequence *)
  | UnpackEmpty                           (* a, b = <iterator without items> *)
  | NotInList (x : Z)                     (* list.index(x), x absent *)
  | InvalidLiteral (s : string)           (* int(s), s not an integer literal *)
  | NoteOutOfRange (note : string) (num : Z)   (* raised by note2num *)
  | NumOutOfRange (num : Z).                   (* raised by num2note *)

Inductive exn : Type :=
  | IndexError
  | KeyError (key : string)
  | ValueError (why : value_error).

Inductive result (A : Type) : Type :=
  | Ok (a : A)
  | Raise (e : exn).
Arguments Ok {A} a.
Arguments Raise {A} e.

Global Instance result_ret : MRet result := @Ok.
Global Instance result_bind : MBind result := λ A B f r,
  match r with
  | Ok a => f a
  | Raise e => Raise e
  end.

(** ** Python built-ins used by the code *)

Module Py.

(** [l[i]] on a list: a negative index counts from the end. *)
Definition getitem {A} (l : list A) (i : Z) : result A :=
  let j := if bool_decide (i < 0) then i + Z.of_nat (length l) else i in
  if bool_decide (j < 0) then Raise IndexError
  else match l !! Z.to_nat j with
       | Some a => Ok a
       | None => Raise IndexError
       end.

(** [range(n)]. *)
Definition range (n : Z) : list Z := seqZ 0 n.

(** [x in l]. *)
Definition contains (x : Z) (l : list Z) : bool := bool_decide (x ∈ l).

(** [l.index(x)]: the position of the first item equal to [x]. *)
Fixpoint index_from (x : Z) (l : list Z) (i : Z) : result Z :=
  match l with
  | [] => Raise (ValueError (NotInList x))
  | y :: l' => if bool_decide (y = x) then Ok i else index_from x l' (i + 1)
  end.
Definition index (l : list Z) (x : Z) : result Z := index_from x l 0.

(** [max(l)]. *)
Definition max (l : list Z) : result Z :=
  match l with
  | [] => Raise (ValueError EmptyMax)
  | x :: l' => Ok (foldl Z.max x l')
  end.

(** [a, b = map(list, zip( *pairs))]: the two columns of a list of pairs.
    Without pairs there is nothing to unpack. *)
Definition unzip2 {A B} (pairs : list (A * B)) : result (list A * list B) :=
  match pairs with
  | [] => Raise (ValueError UnpackEmpty)
  | _ => Ok (pairs.*1, pairs.*2)
  end.

(** A [for] loop over [xs] whose body updates the loop state [s] or raises. *)
Fixpoint for_ {X S} (xs : list X) (body : X → S → result S) (s : S) : result S :=
  match xs with
  | [] => Ok s
  | x :: xs' => s' ← body x s; for_ xs' body s'
  end.

(** [sorted(l, key=key, reverse=reverse)].  [sorted] is a stable sort by
    [key], comparing keys with [<] only; here it is insertion sort, which
    puts an item after the items it follows in [l] whose key is not
    greater.  With [reverse] the list is reversed before and after the
    sort, as [list.sort] does, so that equal keys still keep their order. *)
Section sorted.
Context {A : Type} (key : A → Z).

Fixpoint insert (x : A) (l : list A) : list A :=
  match l with
  | [] => [x]
  | y :: l' => if bool_decide (key y < key x) then y :: insert x l' else x :: l
  end.

Definition stable_sort (l : list A) : list A := foldr insert [] l.

Definition sorted (reverse : bool) (l : list A) : list A :=
  if reverse then list.reverse (stable_sort (list.reverse l))
  else stable_sort l.
End sorted.

(** [s[i]] on a string, for a constant [i >= 0]: a string of one character. *)
Definition str_getitem (s : string) (i : nat) : result string :=
  match String.get i s with
  | Some c => Ok (String c "")
  | None => Raise IndexError
  end.

(** [s[i:]] for a constant [i >= 0]; a slice never raises. *)
Fixpoint str_from (s : string) (i : nat) : string :=
  match i, s with
  | S i', String _ s' => str_from s' i'
  | _, _ => s
  end.

(** [str(n)] for an integer, in decimal. *)
Definition str (n : Z) : string := pretty n.

(** [int(s)]: white space around the literal is dropped; the literal is an
    optional sign and decimal digits, where single underscores may stand
    between digits.  (On ASCII strings, the strings of this model.) *)
Definition is_space (c : ascii) : bool :=
  let n := nat_of_ascii c in
  ((n =? 32) || ((9 <=? n) && (n <=? 13)) || ((28 <=? n) && (n <=? 31)))%nat.

Fixpoint lstrip (s : string) : string :=
  match s with
  | String c s' => if is_space c then lstrip s' else s
  | EmptyString => EmptyString
  end.

Fixpoint rstrip (s : string) : string :=
  match s with
  | String c s' =>
      match rstrip s' with
      | EmptyString => if is_space c then EmptyString else String c EmptyString
      | r => String c r
      end
  | EmptyString => EmptyString
  end.

Definition digit (c : ascii) : option Z :=
  let n := nat_of_ascii c in
  if ((48 <=? n) && (n <=? 57))%nat then Some (Z.of_nat n - 48) else None.

Fixpoint digits (s : string) (acc : Z) (after_digit : bool) : option Z :=
  match s with
  | EmptyString => if after_digit then Some acc else None
  | String c s' =>
      if bool_decide (c = "_"%char) then
        if after_digit then digits s' acc false else None
      else
        d ← digit c; digits s' (10 * acc + d) true
  end.

Definition int (s : string) : result Z :=
  let lit := rstrip (lstrip s) in
  let '(sign, body) :=
    match lit with
    | String "-" body => (-1, body)
    | String "+" body => (1, body)
    | _ => (1, lit)
    end in
  match digits body 0 false with
  | Some n => Ok (sign * n)
  | None => Raise (ValueError (InvalidLiteral s))
  end.

(** [d[k]] on a dictionary with string keys. *)
Definition dict_getitem (d : gmap string Z) (k : string) : result Z :=
  match d !! k with
  | Some v => Ok v
  | None => Raise (KeyError k)
  end.

(** A truth value used as a number ([True] is 1). *)
Definition int_of_bool (b : bool) : Z := if b then 1 else 0.

End Py.

(** ** [NeckPosition] *)

(** Modelled from the spec: the base class [Position] (its module is not part
    of the sources at hand) only stores [placements], [fingers] and the
    optional [id] given to its constructor. *)
Record NeckPosition : Type := mkPosition {
  placements : list Z;
  fingers : list Z;
  id : option Z
}.

(** [NeckPosition(placements, fingers, pos_id)]; [pos_id] defaults to [None]. *)
Definition NeckPosition_init (placements fingers : list Z) (pos_id : option Z)
  : NeckPosition := mkPosition placements fingers pos_id.

Definition convert_strings_frets_to_placements (strings frets : list Z) : list Z :=
  (λ sf : Z * Z, sf.1 * 100 + sf.2) <$> zip strings frets.

Definition from_strings_frets (fingers strings frets : list Z) (pos_id : option Z)
  : NeckPosition :=
  let placements := convert_strings_frets_to_placements strings frets in
  NeckPosition_init placements fingers pos_id.

Definition strings (self : NeckPosition) : list Z :=
  (λ note, note / 100) <$> placements self.

Definition frets (self : NeckPosition) : list Z :=
  (λ note, note `mod` 100) <$> placements self.

Definition sort_by_string (self : NeckPosition) (reverse : bool) : result NeckPosition :=
  '(sorted_placements, sorted_fingers) ←
    Py.unzip2 (Py.sorted (λ x, x.1) reverse (zip (placements self) (fingers self)));
  mret (NeckPosition_init sorted_placements sorted_fingers (id self)).

Definition sort_by_fret (self : NeckPosition) : result NeckPosition :=
  '(sorted_placements, sorted_fingers) ←
    Py.unzip2 (Py.sorted (λ x, x.1 `mod` 100) false (zip (placements self) (fingers self)));
  mret (NeckPosition_init sorted_placements sorted_fingers (id self)).

Definition sort_by_finger (self : NeckPosition) : result NeckPosition :=
  '(placements, fingers) ←
    Py.unzip2 (Py.sorted (λ x, x.2) false (zip (placements self) (fingers self)));
  mret (NeckPosition_init placements fingers (id self)).

(** [add_note] and [shift] change [self] in place: they are given as the new
    state of [self]. *)
Definition add_note (self : NeckPosition) (string fret finger : Z) : NeckPosition :=
  mkPosition (placements self ++ [string * 100 + fret])
             (fingers self ++ [finger])
             (id self).

Definition get_full_position (self : NeckPosition) (num_fingers : Z)
  : result NeckPosition :=
  let num_strings := num_fingers in
  new_placements ←
    Py.for_ (Py.range num_strings) (λ i new_placements,
      if Py.contains i (strings self) then
        j ← Py.index (strings self) i;
        p ← Py.getitem (placements self) j;
        mret (new_placements ++ [p])
      else
        mret (new_placements ++ [-1])) [];
  mret (NeckPosition_init new_placements (fingers self) None).

Definition shift (self : NeckPosition) (shift max_finger : Z) : result NeckPosition :=
  if Py.contains max_finger (fingers self) then mret self
  else
    m ← Py.max (fingers self);
    if bool_decide (m + shift > max_finger) then mret self
    else
      new_fingers ←
        Py.for_ (Py.range (Z.of_nat (length (placements self)))) (λ i new_fingers,
          f ← Py.getitem (fingers self) i;
          if bool_decide (f > 0) then mret (new_fingers ++ [f + shift])
          else mret (new_fingers ++ [f])) [];
      mret (mkPosition (placements self) new_fingers (id self)).

Definition is_barre (self : NeckPosition) : bool :=
  let non_quiet_fingers := filter (λ finger, finger > 0) (fingers self) in
  negb (length non_quiet_fingers =? size (list_to_set non_quiet_fingers : gset Z))%nat.

Definition copy (self : NeckPosition) : NeckPosition :=
  NeckPosition_init (placements self) (fingers self) (id self).

(** [from_position] takes any [Position]; of it, it reads the three fields. *)
Definition from_position (position : NeckPosition) : NeckPosition :=
  NeckPosition_init (placements position) (fingers position) (id position).

(** The values of the dictionary that [to_json] returns: lists of integers
    and the id, an integer or [None]. *)
Inductive py_value : Type :=
  | PyList (l : list Z)
  | PyInt (n : Z)
  | PyNone.

Definition to_json (self : NeckPosition) : gmap string py_value :=
  {[ "strings" := PyList (strings self);
     "frets" := PyList (frets self);
     "fingers" := PyList (fingers self);
     "id" := match id self with Some n => PyInt n | None => PyNone end ]}.

(** ** Note names and MIDI numbers *)

(** [note2num] up to its range check: the number computed from the letter,
    the octave and the alteration. *)
Definition note2num_num (note : string) : result Z :=
  let notes : gmap string Z :=
    list_to_map [("C", 0); ("D", 2); ("E", 4); ("F", 5); ("G", 7); ("A", 9); ("B", 11)] in
  letter ← Py.str_getitem note 0;
  c ← Py.str_getitem note 1;
  '(alt, octave) ←
    (if bool_decide (c ∈ ["#"; "b"]) then
       octave ← Py.int (Py.str_from note 2); mret (c, octave)
     else
       octave ← Py.int (Py.str_from note 1); mret ("", octave));
  base ← Py.dict_getitem notes letter;
  let num := base + 12 * octave in
  let num := num + (1 * Py.int_of_bool (bool_decide (alt = "#"))
                    - 1 * Py.int_of_bool (bool_decide (alt = "b"))) in
  mret num.

Definition note2num (note : string) : result Z :=
  num ← note2num_num note;
  if bool_decide (num < 0 ∨ num > 127) then
    Raise (ValueError (NoteOutOfRange note num))
  else mret num.

Definition num2note (num : Z) : result string :=
  if bool_decide (num < 0 ∨ num > 127) then
    Raise (ValueError (NumOutOfRange num))
  else
    let notes := ["C"; "C#"; "D"; "D#"; "E"; "F"; "F#"; "G"; "G#"; "A"; "A#"; "B"] in
    note ← Py.getitem notes (num `mod` 12);
    let octave := num / 12 in
    mret (note +:+ Py.str octave).

(** ** Notions used to state the properties *)

(** The notes of a position: its (placement, finger) pairs, as the sorts
    pair them up. *)
Definition pairs (self : NeckPosition) : list (Z * Z) :=
  zip (placements self) (fingers self).

Definition same_length (self : NeckPosition) : Prop :=
  length (placements self) = length (fingers self).

(** [sort_by_string] as its description has it: a stable sort of the pairs by
    the string component alone. *)
Definition sort_by_string_spec (self : NeckPosition) (reverse : bool)
  : result NeckPosition :=
  '(sorted_placements, sorted_fingers) ←
    Py.unzip2 (Py.sorted (λ x, x.1 / 100) reverse (pairs self));
  mret (NeckPosition_init sorted_placements sorted_fingers (id self)).

(** The placement that [get_full_position] gives to string [i], in the words
    of its description: the placement of the first note on that string, or
    [-1] when the string is not played. *)
Definition placement_of_string (self : NeckPosition) (i : Z) : Z :=
  match list_find (λ p, p / 100 = i) (placements self) with
  | Some (_, p) => p
  | None => -1
  end.

(** What [shift] is to do to one finger: fingers above 0 move by [shift], the
    others stay. *)
Definition shift_finger (shift : Z) (finger : Z) : Z :=
  if bool_decide (finger > 0) then finger + shift else finger.

Definition is_max (mx : Z) (l : list Z) : Prop :=
  mx ∈ l ∧ ∀ x, x ∈ l → x ≤ mx.

(** How often a finger occurs in a list of fingers. *)
Definition occurrences (f : Z) (l : list Z) : nat :=
  length (filter (λ x, x = f) l).

(** The out-of-range errors: the [ValueError]s that the two conversions
    raise themselves.  ([int] raises a [ValueError] of its own on an octave
    that is no number; that one tells of a malformed name.) *)
Definition out_of_range (e : exn) : Prop :=
  match e with
  | ValueError (NoteOutOfRange _ _) | ValueError (NumOutOfRange _) => True
  | _ => False
  end.

(** [k] comes back from its note name. *)
Definition round_trip (k : Z) : bool :=
  match num2note k ≫= note2num with
  | Ok k' => bool_decide (k' = k)
  | Raise _ => false
  end.

(** * Properties *)

(** ** The functions at work *)

Example num2note_ex : num2note 127 = Ok "G10" ∧ num2note 61 = Ok "C#5".
Proof. vm_compute. split; reflexivity. Qed.

Example note2num_ex :
  note2num "G10" = Ok 127
  ∧ note2num "Bb3" = Ok 46
  ∧ note2num "C#" = Raise (ValueError (InvalidLiteral ""))
  ∧ note2num "H2" = Raise (KeyError "H")
  ∧ note2num "C" = Raise IndexError
  ∧ note2num "C-1" = Raise (ValueError (NoteOutOfRange "C-1" (-12))).
Proof. vm_compute. repeat split; reflexivity. Qed.

Example get_full_position_ex :
  get_full_position (from_strings_frets [1; 2] [0; 2] [0; 3] None) 6
  = Ok (mkPosition [0; -1; 203; -1; -1; -1] [1; 2] None).
Proof. vm_compute. reflexivity. Qed.

Example sort_by_fret_ex :
  sort_by_fret (from_strings_frets [1; 2; 3] [1; 2; 3] [0; 2; 2] None)
  = Ok (mkPosition [100; 202; 302] [1; 2; 3] None).
Proof. vm_compute. reflexivity. Qed.

Example sort_by_finger_ex :
  sort_by_finger (mkPosition [100; 202; 302; 400] [3; 0; -1; 0] (Some 5))
  = Ok (mkPosition [302; 202; 400; 100] [-1; 0; 0; 3] (Some 5)).
Proof. vm_compute. reflexivity. Qed.

Example is_barre_ex : is_barre (mkPosition [] [2;2;0;0;0;0] None) = true.
Proof. vm_compute. reflexivity. Qed.

(** ** [sorted] is the stable sort *)

Section sorted_facts.
Context {A : Type} (key : A → Z).
Implicit Types (x y : A) (l : list A) (k : Z).

Lemma insert_Permutation x l : Py.insert key x l ≡ₚ x :: l.
Proof.
  induction l as [|y l IH]; simpl; [done|].
  case_bool_decide; [|done].
  rewrite IH. apply Permutation_swap.
Qed.

Lemma stable_sort_Permutation l : Py.stable_sort key l ≡ₚ l.
Proof.
  induction l as [|x l IH]; simpl; [done|].
  by rewrite insert_Permutation, IH.
Qed.

Lemma sorted_Permutation reverse l : Py.sorted key reverse l ≡ₚ l.
Proof.
  destruct reverse; simpl.
  - by rewrite reverse_Permutation, stable_sort_Permutation, reverse_Permutation.
  - apply stable_sort_Permutation.
Qed.

Lemma insert_StronglySorted x l :
  StronglySorted (λ a b, key a ≤ key b) l →
  StronglySorted (λ a b, key a ≤ key b) (Py.insert key x l).
Proof.
  induction 1 as [|y l Hl IH Hy]; simpl.
  - repeat constructor.
  - case_bool_decide as Hlt.
    + constructor; [done|].
      rewrite insert_Permutation. constructor; [lia|done].
    + constructor; [by constructor|].
      constructor; [lia|].
      eapply Forall_impl; [exact Hy|]. simpl. intros; lia.
Qed.

Lemma stable_sort_StronglySorted l :
  StronglySorted (λ a b, key a ≤ key b) (Py.stable_sort key l).
Proof.
  induction l; simpl; [constructor|by apply insert_StronglySorted].
Qed.

Lemma StronglySorted_reverse (R : relation A) l :
  StronglySorted R l → StronglySorted (flip R) (reverse l).
Proof.
  induction 1 as [|x l Hl IH Hx]; [constructor|].
  rewrite reverse_cons. apply StronglySorted_app_2; [|done|repeat constructor].
  intros a b Ha ->%list_elem_of_singleton.
  rewrite elem_of_reverse in Ha. rewrite Forall_forall in Hx. by apply Hx.
Qed.

Lemma sorted_ascending l :
  StronglySorted (λ a b, key a ≤ key b) (Py.sorted key false l).
Proof. apply stable_sort_StronglySorted. Qed.

Lemma sorted_descending l :
  StronglySorted (λ a b, key b ≤ key a) (Py.sorted key true l).
Proof.
  apply (StronglySorted_reverse (λ a b, key a ≤ key b)).
  apply stable_sort_StronglySorted.
Qed.

(** Stability: the items of any one key stay in the order they had. *)
Lemma insert_filter k x l :
  filter (λ a, key a = k) (Py.insert key x l) = filter (λ a, key a = k) (x :: l).
Proof.
  induction l as [|y l IH]; simpl; [done|].
  case_bool_decide as Hlt; [|done].
  rewrite (filter_cons _ y), IH, !filter_cons.
  repeat case_decide; try done; lia.
Qed.

Lemma stable_sort_filter k l :
  filter (λ a, key a = k) (Py.stable_sort key l) = filter (λ a, key a = k) l.
Proof.
  induction l as [|x l IH]; simpl; [done|].
  by rewrite insert_filter, !filter_cons, IH.
Qed.

Lemma sorted_stable reverse k l :
  filter (λ a, key a = k) (Py.sorted key reverse l) = filter (λ a, key a = k) l.
Proof.
  destruct reverse; simpl.
  - by rewrite filter_reverse, stable_sort_filter, filter_reverse, reverse_involutive.
  - apply stable_sort_filter.
Qed.

(** Two keys that order the items of [l] alike sort [l] alike. *)
Lemma insert_ext (key' : A → Z) x l :
  (∀ y, y ∈ l → key y < key x ↔ key' y < key' x) →
  Py.insert key x l = Py.insert key' x l.
Proof.
  induction l as [|y l IH]; intros H; simpl; [done|].
  rewrite IH by (intros; apply H; by right).
  assert (key y < key x ↔ key' y < key' x) by (apply H; by left).
  repeat case_bool_decide; tauto.
Qed.

Lemma stable_sort_ext (key' : A → Z) l :
  (∀ x y, x ∈ l → y ∈ l → key x < key y ↔ key' x < key' y) →
  Py.stable_sort key l = Py.stable_sort key' l.
Proof.
  induction l as [|x l IH]; intros H; simpl; [done|].
  rewrite <- IH by (intros; apply H; by right).
  apply insert_ext. intros y Hy.
  rewrite stable_sort_Permutation in Hy.
  apply H; [by right|by left].
Qed.

Lemma sorted_ext (key' : A → Z) reverse l :
  (∀ x y, x ∈ l → y ∈ l → key x < key y ↔ key' x < key' y) →
  Py.sorted key reverse l = Py.sorted key' reverse l.
Proof.
  intros H. destruct reverse; simpl; [f_equal|]; apply stable_sort_ext; [|done].
  intros x y. rewrite !elem_of_reverse. apply H.
Qed.

Lemma sorted_nil reverse l : Py.sorted key reverse l = [] ↔ l = [].
Proof.
  split; [|by intros ->; destruct reverse].
  intros H. apply Permutation_nil. by rewrite <- H, sorted_Permutation.
Qed.

(** A list has one stable sort only: [sorted] is determined by being
    ordered by key and keeping, for every key, the items of that key in
    their order. *)
Lemma stable_sorted_unique l1 l2 :
  StronglySorted (λ a b, key a ≤ key b) l1 →
  StronglySorted (λ a b, key a ≤ key b) l2 →
  (∀ k, filter (λ a, key a = k) l1 = filter (λ a, key a = k) l2) →
  l1 = l2.
Proof.
  revert l2. induction l1 as [|x l1 IH]; intros [|y l2] H1 H2 H.
  - done.
  - specialize (H (key y)). rewrite filter_cons in H. by case_decide.
  - specialize (H (key x)). rewrite filter_cons in H. by case_decide.
  - apply StronglySorted_cons in H1 as [Hx H1].
    apply StronglySorted_cons in H2 as [Hy H2].
    rewrite Forall_forall in Hx, Hy.
    assert (key x = key y) as Hxy.
    { assert (x ∈ y :: l2) as Hin.
      { eapply (list_elem_of_filter (λ a, key a = key x)).
        rewrite <- H, filter_cons. case_decide; [left|done]. }
      assert (y ∈ x :: l1) as Hin'.
      { eapply (list_elem_of_filter (λ a, key a = key y)).
        rewrite H, filter_cons. case_decide; [left|done]. }
      apply elem_of_cons in Hin as [->|Hin]; [done|].
      apply elem_of_cons in Hin' as [->|Hin']; [done|].
      apply Hy in Hin. apply Hx in Hin'. lia. }
    assert (x = y) as <-.
    { specialize (H (key x)). rewrite !filter_cons in H.
      repeat case_decide; try done. congruence. }
    f_equal. apply IH; [done..|].
    intros k. specialize (H k). rewrite !filter_cons in H.
    case_decide; congruence.
Qed.

Lemma sorted_unique l l' :
  StronglySorted (λ a b, key a ≤ key b) l' →
  (∀ k, filter (λ a, key a = k) l' = filter (λ a, key a = k) l) →
  l' = Py.sorted key false l.
Proof.
  intros Hs Hf. apply stable_sorted_unique; [done|apply sorted_ascending|].
  intros k. by rewrite Hf, sorted_stable.
Qed.

(** The same with [reverse]: the one list ordered by falling key that keeps
    the items of every key in their order. *)
Lemma sorted_reverse_unique l l' :
  StronglySorted (λ a b, key b ≤ key a) l' →
  (∀ k, filter (λ a, key a = k) l' = filter (λ a, key a = k) l) →
  l' = Py.sorted key true l.
Proof.
  intros Hs Hf. rewrite <- (reverse_involutive l'). simpl. f_equal.
  apply stable_sorted_unique.
  - by apply (StronglySorted_reverse (λ a b, key b ≤ key a)).
  - apply stable_sort_StronglySorted.
  - intros k. by rewrite stable_sort_filter, !filter_reverse, Hf.
Qed.
End sorted_facts.

(** ** The three sorts *)

Lemma unzip2_Ok {A B} (l : list (A * B)) :
  l ≠ [] → Py.unzip2 l = Ok (l.*1, l.*2).
Proof. by destruct l. Qed.

Lemma pairs_nil self : pairs self = [] ↔ placements self = [] ∨ fingers self = [].
Proof.
  unfold pairs. destruct (placements self), (fingers self); simpl;
    split; try tauto; try done; intros [?|?]; done.
Qed.

Lemma pairs_init l i : pairs (NeckPosition_init (l.*1) (l.*2) i) = l.
Proof. apply zip_fst_snd. Qed.

Lemma same_length_init (l : list (Z * Z)) i :
  same_length (NeckPosition_init (l.*1) (l.*2) i).
Proof. unfold same_length. simpl. by rewrite !length_fmap. Qed.

Lemma sort_by_string_Ok self reverse :
  pairs self ≠ [] →
  sort_by_string self reverse =
    let l := Py.sorted (λ x, x.1) reverse (pairs self) in
    Ok (NeckPosition_init (l.*1) (l.*2) (id self)).
Proof.
  intros H. unfold sort_by_string. fold (pairs self).
  rewrite unzip2_Ok; [done|]. by rewrite sorted_nil.
Qed.

Lemma sort_by_string_spec_Ok self reverse :
  pairs self ≠ [] →
  sort_by_string_spec self reverse =
    let l := Py.sorted (λ x, x.1 / 100) reverse (pairs self) in
    Ok (NeckPosition_init (l.*1) (l.*2) (id self)).
Proof.
  intros H. unfold sort_by_string_spec.
  rewrite unzip2_Ok; [done|]. by rewrite sorted_nil.
Qed.

Lemma sort_by_fret_Ok self :
  pairs self ≠ [] →
  sort_by_fret self =
    let l := Py.sorted (λ x, x.1 `mod` 100) false (pairs self) in
    Ok (NeckPosition_init (l.*1) (l.*2) (id self)).
Proof.
  intros H. unfold sort_by_fret. fold (pairs self).
  rewrite unzip2_Ok; [done|]. by rewrite sorted_nil.
Qed.

Lemma sort_by_finger_Ok self :
  pairs self ≠ [] →
  sort_by_finger self =
    let l := Py.sorted (λ x, x.2) false (pairs self) in
    Ok (NeckPosition_init (l.*1) (l.*2) (id self)).
Proof.
  intros H. unfold sort_by_finger. fold (pairs self).
  rewrite unzip2_Ok; [done|]. by rewrite sorted_nil.
Qed.

Lemma pairs_columns (self : NeckPosition) (l : list (Z * Z)) :
  same_length self →
  l ≡ₚ pairs self →
  l.*1 ≡ₚ placements self ∧ l.*2 ≡ₚ fingers self.
Proof.
  unfold same_length, pairs. intros Hlen Hl. split.
  - rewrite Hl, fst_zip; [done|lia].
  - rewrite Hl, snd_zip; [done|lia].
Qed.

(** C8: on a position with at least one note, [sort_by_fret] returns a
    position whose frets never decrease and [sort_by_string] with
    [reverse=True] one whose strings never increase; either result has the
    (placement, finger) pairs of the input, as a multiset, and its id. *)
Theorem sort_by_fret_string_ordered (self : NeckPosition) :
  placements self ≠ [] → fingers self ≠ [] →
  (∃ q, sort_by_fret self = Ok q
        ∧ StronglySorted Z.le (frets q)
        ∧ pairs q ≡ₚ pairs self
        ∧ same_length q
        ∧ (same_length self →
             placements q ≡ₚ placements self ∧ fingers q ≡ₚ fingers self)
        ∧ id q = id self)
  ∧ (∃ q, sort_by_string self true = Ok q
          ∧ StronglySorted Z.ge (strings q)
          ∧ pairs q ≡ₚ pairs self
          ∧ same_length q
          ∧ (same_length self →
               placements q ≡ₚ placements self ∧ fingers q ≡ₚ fingers self)
          ∧ id q = id self).
Proof.
  intros Hp Hf.
  assert (pairs self ≠ []) as Hne by (rewrite pairs_nil; tauto).
  split.
  - eexists. split; [by apply sort_by_fret_Ok|]. cbv zeta.
    split_and!; [|by rewrite pairs_init, sorted_Permutation|apply same_length_init
                 |intros; by apply pairs_columns, sorted_Permutation|done].
    unfold frets. simpl. rewrite <- list_fmap_compose.
    eapply StronglySorted_fmap; [|apply (sorted_ascending (λ x : Z * Z, x.1 `mod` 100))].
    done.
  - eexists. split; [by apply sort_by_string_Ok|]. cbv zeta.
    split_and!; [|by rewrite pairs_init, sorted_Permutation|apply same_length_init
                 |intros; by apply pairs_columns, sorted_Permutation|done].
    unfold strings. simpl. rewrite <- list_fmap_compose.
    eapply StronglySorted_fmap; [|apply (sorted_descending (λ x : Z * Z, x.1))].
    intros [a ?] [b ?] Hab; simpl in *.
    apply Z.le_ge, Z.div_le_mono; lia.
Qed.

Lemma sort_by_fret_string_ordered_witness :
  ∃ q, sort_by_fret (from_strings_frets [1; 2; 3] [1; 2; 3] [0; 2; 2] None) = Ok q
       ∧ StronglySorted Z.le (frets q).
Proof.
  destruct (sort_by_fret_string_ordered
              (from_strings_frets [1; 2; 3] [1; 2; 3] [0; 2; 2] None))
    as [(q & Hq & Hs & _) _]; [discriminate|discriminate|].
  exists q. split; [exact Hq|exact Hs].
Defined.

(** C3, as stated, fails: [sort_by_string] orders the pairs by the whole
    placement, so two notes on one string are put in the order of their
    frets, where a stable sort by string leaves them as they were. *)
Lemma sort_by_string_not_by_string_only :
  sort_by_string (mkPosition [100; 105] [1; 2] None) true
    = Ok (mkPosition [105; 100] [2; 1] None)
  ∧ sort_by_string_spec (mkPosition [100; 105] [1; 2] None) true
    = Ok (mkPosition [100; 105] [1; 2] None)
  ∧ sort_by_string (mkPosition [100; 105] [1; 2] None) true
    ≠ sort_by_string_spec (mkPosition [100; 105] [1; 2] None) true.
Proof. vm_compute. split_and!; [done|done|discriminate]. Qed.

(** C3, amended: on a position with at least one note, [sort_by_string] with
    [reverse=True] is the stable sort of the (placement, finger) pairs by the
    placement, largest first: pairs of one placement keep their order.  It
    is the stable sort by the string component when notes on one string have
    one placement (so when no string is played twice). *)
Theorem sort_by_string_stable (self : NeckPosition) :
  placements self ≠ [] → fingers self ≠ [] →
  ∃ q, sort_by_string self true = Ok q
       ∧ StronglySorted (λ a b, b.1 ≤ a.1) (pairs q)
       ∧ (∀ k, filter (λ a, a.1 = k) (pairs q) = filter (λ a, a.1 = k) (pairs self))
       ∧ ((∀ a b, a ∈ placements self → b ∈ placements self → a / 100 = b / 100 → a = b) →
          sort_by_string_spec self true = Ok q).
Proof.
  intros Hp Hf.
  assert (pairs self ≠ []) as Hne by (rewrite pairs_nil; tauto).
  eexists. split; [by apply sort_by_string_Ok|]. cbv zeta.
  rewrite pairs_init. split_and!.
  - apply (sorted_descending (λ x : Z * Z, x.1)).
  - intros k. apply (sorted_stable (λ x : Z * Z, x.1)).
  - intros Hone. rewrite sort_by_string_spec_Ok by done. cbv zeta.
    rewrite (sorted_ext (λ x : Z * Z, x.1 / 100) (λ x : Z * Z, x.1)); [done|].
    intros [a fa] [b fb] Ha%elem_of_zip_l Hb%elem_of_zip_l. simpl.
    specialize (Hone a b Ha Hb).
    split; intros Hlt.
    + destruct (decide (a < b)) as [|Hge]; [done|].
      assert (b / 100 ≤ a / 100) by (apply Z.div_le_mono; lia). lia.
    + assert (a / 100 ≤ b / 100) by (apply Z.div_le_mono; lia).
      destruct (decide (a / 100 = b / 100)) as [Heq|]; [|lia].
      apply Hone in Heq. lia.
Qed.

Lemma sort_by_string_stable_witness :
  ∃ q, sort_by_string (mkPosition [100; 302; 203] [1; 2; 3] None) true = Ok q
       ∧ sort_by_string_spec (mkPosition [100; 302; 203] [1; 2; 3] None) true = Ok q.
Proof.
  destruct (sort_by_string_stable (mkPosition [100; 302; 203] [1; 2; 3] None))
    as (q & Hq & _ & _ & Hspec); [done|done|].
  exists q. split; [done|]. apply Hspec.
  intros a b Ha Hb. simpl in Ha, Hb.
  rewrite !elem_of_cons, elem_of_nil in Ha, Hb.
  destruct Ha as [->|[->|[->|[]]]], Hb as [->|[->|[->|[]]]]; vm_compute; congruence.
Defined.

(** ** Empty positions *)

(** C5: on the empty position the three sorts fail, having nothing to
    unpack, and so does [shift]: [max_finger] is not among no fingers, and
    the maximum of no fingers is asked for. *)
Theorem empty_position_fails (pos_id : option Z) (reverse : bool) (s m : Z) :
  sort_by_string (mkPosition [] [] pos_id) reverse = Raise (ValueError UnpackEmpty)
  ∧ sort_by_fret (mkPosition [] [] pos_id) = Raise (ValueError UnpackEmpty)
  ∧ sort_by_finger (mkPosition [] [] pos_id) = Raise (ValueError UnpackEmpty)
  ∧ shift (mkPosition [] [] pos_id) s m = Raise (ValueError EmptyMax)
  ∧ (∀ ps, Py.contains m [] = false
           ∧ shift (mkPosition ps [] pos_id) s m = Raise (ValueError EmptyMax)).
Proof. destruct reverse; split_and!; try done. Qed.

(** ** Loops and indexing *)

Lemma getitem_nonneg {A} (l : list A) (i : Z) :
  0 ≤ i →
  Py.getitem l i = match l !! Z.to_nat i with Some a => Ok a | None => Raise IndexError end.
Proof.
  intros Hi. unfold Py.getitem. cbv zeta.
  rewrite (bool_decide_eq_false_2 (i < 0)) by lia.
  by rewrite (bool_decide_eq_false_2 (i < 0)) by lia.
Qed.

Lemma getitem_lookup {A} (l : list A) (i : nat) (a : A) :
  l !! i = Some a → Py.getitem l (Z.of_nat i) = Ok a.
Proof.
  intros H. rewrite getitem_nonneg by lia. by rewrite Nat2Z.id, H.
Qed.

(** A loop whose every round appends one item maps over its range. *)
Lemma for_append {X Y} (h : X → Y) (xs : list X) body (acc : list Y) :
  (∀ x s, x ∈ xs → body x s = Ok (s ++ [h x])) →
  Py.for_ xs body acc = Ok (acc ++ (h <$> xs)).
Proof.
  revert acc. induction xs as [|x xs IH]; intros acc H; simpl.
  - by rewrite app_nil_r.
  - rewrite H by left. simpl. rewrite IH by (intros; apply H; by right).
    by rewrite <- app_assoc.
Qed.

Lemma index_from_first (x : Z) (l : list Z) (a : Z) :
  x ∈ l →
  ∃ j : nat, Py.index_from x l a = Ok (a + Z.of_nat j)
             ∧ l !! j = Some x
             ∧ ∀ j' : nat, (j' < j)%nat → l !! j' ≠ Some x.
Proof.
  revert a. induction l as [|y l IH]; intros a Hin; [by apply elem_of_nil in Hin|].
  simpl. case_bool_decide as Hy.
  - exists 0%nat. split_and!; [f_equal; lia|by subst|intros; lia].
  - apply elem_of_cons in Hin as [->|Hin]; [done|].
    destruct (IH (a + 1) Hin) as (j & Hj & Hl & Hfirst).
    exists (S j). split_and!; [rewrite Hj; f_equal; lia|done|].
    intros [|j'] ?; simpl; [congruence|apply Hfirst; lia].
Qed.

(** ** [get_full_position] *)

Lemma get_full_position_round (self : NeckPosition) (i : Z) (s : list Z) :
  (if Py.contains i (strings self) then
     j ← Py.index (strings self) i;
     p ← Py.getitem (placements self) j;
     mret (s ++ [p])
   else mret (s ++ [-1]))
  = Ok (s ++ [placement_of_string self i]).
Proof.
  unfold Py.contains, placement_of_string. case_bool_decide as Hin.
  - destruct (index_from_first i (strings self) 0 Hin) as (j & Hj & Hl & Hfirst).
    unfold Py.index. rewrite Hj. simpl.
    unfold strings in Hl, Hfirst.
    apply list_lookup_fmap_Some_1 in Hl as (p & Hp & Hl).
    rewrite (getitem_lookup _ j p) by done. simpl.
    assert (list_find (λ p, p / 100 = i) (placements self) = Some (j, p)) as ->; [|done].
    apply list_find_Some. split_and!; [done..|].
    intros j' y Hy Hlt Hstr. apply (Hfirst j' Hlt).
    by rewrite list_lookup_fmap, Hy, <- Hstr.
  - assert (list_find (λ p, p / 100 = i) (placements self) = None) as ->; [|done].
    apply list_find_None, Forall_forall. intros p Hp Hstr.
    apply Hin. unfold strings. apply list_elem_of_fmap. by exists p.
Qed.

Lemma get_full_position_Ok (self : NeckPosition) (num_fingers : Z) :
  get_full_position self num_fingers
  = Ok (mkPosition (placement_of_string self <$> Py.range num_fingers) (fingers self) None).
Proof.
  unfold get_full_position.
  rewrite (for_append (placement_of_string self)); [done|].
  intros i s _. apply get_full_position_round.
Qed.

(** C2: [get_full_position] returns a position with one placement for each
    of the strings [0 .. num_fingers - 1]: that of the (first) note on the
    string if the string is played, and [-1] if not; its fingers are those
    of the position, as they were. *)
Theorem get_full_position_placements (self : NeckPosition) (num_fingers : Z) :
  0 ≤ num_fingers →
  ∃ q, get_full_position self num_fingers = Ok q
       ∧ Z.of_nat (length (placements q)) = num_fingers
       ∧ fingers q = fingers self
       ∧ ∀ i, 0 ≤ i < num_fingers →
           (i ∈ strings self →
              ∃ (j : nat) (p : Z),
                strings self !! j = Some i
                ∧ (∀ j' : nat, (j' < j)%nat → strings self !! j' ≠ Some i)
                ∧ placements self !! j = Some p
                ∧ placements q !! Z.to_nat i = Some p)
           ∧ (i ∉ strings self → placements q !! Z.to_nat i = Some (-1)).
Proof.
  intros Hn. eexists. split; [apply get_full_position_Ok|]. simpl.
  split_and!; [unfold Py.range; rewrite length_fmap, length_seqZ; lia|done|].
  intros i Hi.
  assert ((placement_of_string self <$> Py.range num_fingers) !! Z.to_nat i
          = Some (placement_of_string self i)) as ->.
  { unfold Py.range. rewrite list_lookup_fmap, lookup_seqZ_lt by lia.
    simpl. f_equal. f_equal. lia. }
  unfold placement_of_string.
  destruct (list_find _ _) as [[j p]|] eqn:Hfind.
  - apply list_find_Some in Hfind as (Hp & Hstr & Hfirst).
    assert (strings self !! j = Some i) as Hj.
    { unfold strings. by rewrite list_lookup_fmap, Hp, <- Hstr. }
    split.
    + intros _. exists j, p. split_and!; [done| |done..].
      intros j' Hlt Hj'. unfold strings in Hj'.
      apply list_lookup_fmap_Some_1 in Hj' as (y & Hy & Hl).
      by apply (Hfirst j' y).
    + intros Hnot. destruct Hnot. by eapply list_elem_of_lookup_2.
  - apply list_find_None in Hfind. rewrite Forall_forall in Hfind.
    split; [|done]. intros Hin. unfold strings in Hin.
    apply list_elem_of_fmap in Hin as (p & Hp & Hin). by destruct (Hfind p Hin).
Qed.

Lemma get_full_position_placements_witness :
  ∃ q, get_full_position (from_strings_frets [1; 2] [0; 2] [0; 3] None) 6 = Ok q
       ∧ placements q = [0; -1; 203; -1; -1; -1]
       ∧ fingers q = [1; 2].
Proof.
  destruct (get_full_position_placements
              (from_strings_frets [1; 2] [0; 2] [0; 3] None) 6)
    as (q & Hq & Hlen & Hf & Hi); [lia|].
  exists q. split_and!; [done| |done].
  change (strings (from_strings_frets [1; 2] [0; 2] [0; 3] None))
    with [0; 2] in Hi.
  change (placements (from_strings_frets [1; 2] [0; 2] [0; 3] None))
    with [0; 203] in Hi.
  assert (∀ i, 0 ≤ i < 6 → i ≠ 0 → i ≠ 2 →
            placements q !! Z.to_nat i = Some (-1)) as Hmuted.
  { intros i Hrange H0 H2. apply Hi; [done|].
    rewrite !elem_of_cons, elem_of_nil. tauto. }
  assert (∀ i p, 0 ≤ i < 6 → i ∈ [0; 2] →
            (∀ j : nat, [0; 2] !! j = Some i → [0; 203] !! j = Some p) →
            placements q !! Z.to_nat i = Some p) as Hplayed.
  { intros i p Hrange Hin Hp.
    destruct (proj1 (Hi i Hrange) Hin) as (j & p' & Hj & _ & Hp' & Hlook).
    rewrite (Hp j Hj) in Hp'. congruence. }
  pose proof (Hplayed 0 0 ltac:(lia) ltac:(left)
                ltac:(by intros [|[|?]] [=])) as L0.
  pose proof (Hmuted 1 ltac:(lia) ltac:(lia) ltac:(lia)) as L1.
  pose proof (Hplayed 2 203 ltac:(lia) ltac:(right; left)
                ltac:(by intros [|[|?]] [=])) as L2.
  pose proof (Hmuted 3 ltac:(lia) ltac:(lia) ltac:(lia)) as L3.
  pose proof (Hmuted 4 ltac:(lia) ltac:(lia) ltac:(lia)) as L4.
  pose proof (Hmuted 5 ltac:(lia) ltac:(lia) ltac:(lia)) as L5.
  destruct (placements q) as [|a0 [|a1 [|a2 [|a3 [|a4 [|a5 [|a6 l]]]]]]];
    simpl in Hlen; try lia.
  simpl in L0, L1, L2, L3, L4, L5. congruence.
Defined.

(** C10: the position that [get_full_position] returns has no id, whatever
    the id of the position it is called on. *)
Theorem get_full_position_id (self : NeckPosition) (num_fingers : Z) :
  ∃ q, get_full_position self num_fingers = Ok q ∧ id q = None.
Proof. eexists. split; [apply get_full_position_Ok|done]. Qed.

(** ** [shift] *)

Lemma foldl_max_is_max (x : Z) (l : list Z) : is_max (foldl Z.max x l) (x :: l).
Proof.
  revert x. induction l as [|y l IH]; intros x; simpl.
  - split; [left|]. by intros ? ->%list_elem_of_singleton.
  - destruct (IH (Z.max x y)) as [Hin Hle]. split.
    + apply elem_of_cons in Hin as [->|Hin]; [|by do 2 right].
      destruct (Z.max_spec x y) as [[_ ->]|[_ ->]]; [right|]; left.
    + intros z Hz. rewrite !elem_of_cons in Hz.
      destruct Hz as [->|[->|Hz]].
      * etrans; [apply (Z.le_max_l _ y)|]. apply Hle. left.
      * etrans; [apply (Z.le_max_r x)|]. apply Hle. left.
      * apply Hle. by right.
Qed.

Lemma max_Ok (mx : Z) (l : list Z) : is_max mx l → Py.max l = Ok mx.
Proof.
  intros [Hin Hle]. destruct l as [|x l]; [by apply elem_of_nil in Hin|].
  simpl. f_equal. destruct (foldl_max_is_max x l) as [Hin' Hle'].
  apply Hle in Hin'. apply Hle' in Hin. lia.
Qed.

Lemma max_nonempty (l : list Z) : l ≠ [] → ∃ mx, is_max mx l.
Proof.
  destruct l as [|x l]; [done|]. intros _.
  eexists. apply foldl_max_is_max.
Qed.

Lemma shift_loop (self : NeckPosition) (shift : Z) :
  same_length self →
  Py.for_ (Py.range (Z.of_nat (length (placements self)))) (λ i new_fingers,
    f ← Py.getitem (fingers self) i;
    if bool_decide (f > 0) then mret (new_fingers ++ [f + shift])
    else mret (new_fingers ++ [f])) []
  = Ok (shift_finger shift <$> fingers self).
Proof.
  intros Hlen. rewrite Hlen.
  rewrite (for_append (λ i, shift_finger shift (default 0 (fingers self !! Z.to_nat i)))).
  - f_equal. simpl. apply list_eq. intros i.
    unfold Py.range. rewrite !list_lookup_fmap.
    destruct (fingers self !! i) as [f|] eqn:Hf; simpl.
    + rewrite lookup_seqZ_lt by (apply lookup_lt_Some in Hf; lia).
      cbn [fmap option_fmap option_map]. rewrite Z.add_0_l, Nat2Z.id, Hf. done.
    + rewrite lookup_seqZ_ge; [done|]. apply lookup_ge_None_1 in Hf. lia.
  - intros i s Hi. unfold Py.range in Hi. apply elem_of_seqZ in Hi.
    rewrite getitem_nonneg by lia.
    destruct (lookup_lt_is_Some_2 (fingers self) (Z.to_nat i)) as [f Hf]; [lia|].
    rewrite Hf. simpl. unfold shift_finger. by case_bool_decide.
Qed.

Lemma shift_Ok (self : NeckPosition) (shift_by max_finger mx : Z) :
  same_length self →
  is_max mx (fingers self) →
  shift self shift_by max_finger
  = Ok (if bool_decide (max_finger ∈ fingers self ∨ mx + shift_by > max_finger)
        then self
        else mkPosition (placements self)
                        (shift_finger shift_by <$> fingers self)
                        (id self)).
Proof.
  intros Hlen Hmax. unfold shift, Py.contains.
  case_bool_decide as Hin.
  { by rewrite bool_decide_eq_true_2 by tauto. }
  rewrite (max_Ok mx) by done. simpl.
  case_bool_decide as Hgt.
  { by rewrite bool_decide_eq_true_2 by tauto. }
  rewrite shift_loop by done. simpl.
  by rewrite bool_decide_eq_false_2 by tauto.
Qed.

(** C4, as stated, fails: on the position that [get_full_position] makes of
    two notes, which has six placements and two fingers, [shift] reads a
    finger for each placement and ends in an [IndexError]. *)
Lemma shift_fails_on_full_position :
  get_full_position (mkPosition [0; 203] [1; 2] None) 6
    = Ok (mkPosition [0; -1; 203; -1; -1; -1] [1; 2] None)
  ∧ fingers (mkPosition [0; -1; 203; -1; -1; -1] [1; 2] None) ≠ []
  ∧ is_max 2 [1; 2]
  ∧ ¬ (4 ∈ [1; 2] ∨ 2 + 1 > 4)
  ∧ shift (mkPosition [0; -1; 203; -1; -1; -1] [1; 2] None) 1 4 = Raise IndexError.
Proof.
  split_and!; [by vm_compute|done| | |by vm_compute].
  - split; [by right; left|].
    intros x. rewrite !elem_of_cons, elem_of_nil. intros [->|[->|[]]]; lia.
  - rewrite !elem_of_cons, elem_of_nil. intros [[|[|[]]]|]; lia.
Qed.

(** C4, amended: on a position with as many fingers as placements, whose
    greatest finger is [mx], [shift] leaves the position as it is if
    [max_finger] is among the fingers or [mx + shift > max_finger]; if not,
    it adds [shift] to every finger above 0 and leaves the others. *)
Theorem shift_spec (self : NeckPosition) (shift_by max_finger mx : Z) :
  same_length self →
  is_max mx (fingers self) →
  (max_finger ∈ fingers self ∨ mx + shift_by > max_finger →
     shift self shift_by max_finger = Ok self)
  ∧ (¬ (max_finger ∈ fingers self ∨ mx + shift_by > max_finger) →
       shift self shift_by max_finger
       = Ok (mkPosition (placements self)
                        (shift_finger shift_by <$> fingers self)
                        (id self))).
Proof.
  intros Hlen Hmax. rewrite (shift_Ok self shift_by max_finger mx) by done.
  split; intros Hc.
  - by rewrite bool_decide_eq_true_2.
  - by rewrite bool_decide_eq_false_2.
Qed.

Lemma shift_spec_witness :
  shift (mkPosition [101; 202; 300; 403] [1; 2; 0; 3] None) 1 4
    = Ok (mkPosition [101; 202; 300; 403] [2; 3; 0; 4] None)
  ∧ shift (mkPosition [101; 402; 300; 203] [1; 4; 0; 3] None) 1 4
    = Ok (mkPosition [101; 402; 300; 203] [1; 4; 0; 3] None).
Proof.
  split.
  - apply (shift_spec (mkPosition [101; 202; 300; 403] [1; 2; 0; 3] None) 1 4 3).
    + reflexivity.
    + split; [by do 3 right; left|]. simpl. intros x.
      rewrite !elem_of_cons, elem_of_nil. intros [->|[->|[->|[->|[]]]]]; lia.
    + simpl. rewrite !elem_of_cons, elem_of_nil. intros [[|[|[|[|[]]]]]|]; lia.
  - apply (shift_spec (mkPosition [101; 402; 300; 203] [1; 4; 0; 3] None) 1 4 4).
    + reflexivity.
    + split; [by right; left|]. simpl. intros x.
      rewrite !elem_of_cons, elem_of_nil. intros [->|[->|[->|[->|[]]]]]; lia.
    + left. simpl. by right; left.
Defined.

(** ** The length of [placements] and [fingers] *)

(** C1, as stated, fails: [get_full_position] gives a position of two notes
    six placements and leaves it its two fingers. *)
Lemma get_full_position_breaks_same_length :
  same_length (mkPosition [0; 203] [1; 2] None)
  ∧ get_full_position (mkPosition [0; 203] [1; 2] None) 6
    = Ok (mkPosition [0; -1; 203; -1; -1; -1] [1; 2] None)
  ∧ ¬ same_length (mkPosition [0; -1; 203; -1; -1; -1] [1; 2] None).
Proof. split_and!; [done|by vm_compute|]. unfold same_length. simpl. lia. Qed.

(** C1, amended: construction from sequences of one length, [add_note],
    [shift], the three sorts, [copy] and [from_position] give a position
    with as many fingers as placements when they are given one; [shift] and
    the sorts do return a position unless the position is empty.
    [get_full_position] returns [num_fingers] placements (none for a
    negative [num_fingers]) with the fingers it was given, whatever their
    number. *)
Theorem same_length_kept (self : NeckPosition) :
  same_length self →
  (∀ ps fs pos_id, length ps = length fs → same_length (NeckPosition_init ps fs pos_id))
  ∧ (∀ fs ss frs pos_id, length ss = length fs → length frs = length fs →
       same_length (from_strings_frets fs ss frs pos_id))
  ∧ same_length (copy self)
  ∧ same_length (from_position self)
  ∧ (∀ string fret finger, same_length (add_note self string fret finger))
  ∧ (∀ s m q, shift self s m = Ok q → same_length q)
  ∧ (∀ reverse q, sort_by_string self reverse = Ok q → same_length q)
  ∧ (∀ q, sort_by_fret self = Ok q → same_length q)
  ∧ (∀ q, sort_by_finger self = Ok q → same_length q)
  ∧ (placements self ≠ [] →
       ∀ s m reverse,
         (∃ q, shift self s m = Ok q)
         ∧ (∃ q, sort_by_string self reverse = Ok q)
         ∧ (∃ q, sort_by_fret self = Ok q)
         ∧ (∃ q, sort_by_finger self = Ok q))
  ∧ (∀ n, ∃ q, get_full_position self n = Ok q
               ∧ length (placements q) = Z.to_nat n
               ∧ fingers q = fingers self).
Proof.
  intros Hlen.
  assert (∀ s m, fingers self ≠ [] →
            ∃ q, shift self s m = Ok q ∧ same_length q) as Hshift.
  { intros s m [mx Hmx]%max_nonempty.
    eexists. split; [by apply (shift_Ok self s m mx)|].
    case_bool_decide; [done|].
    unfold same_length. simpl. by rewrite length_fmap. }
  assert (placements self ≠ [] → pairs self ≠ [] ∧ fingers self ≠ []) as Hne.
  { intros Hp. rewrite pairs_nil.
    assert (fingers self ≠ []); [|tauto].
    unfold same_length in Hlen. intros Hf. rewrite Hf in Hlen.
    by destruct (placements self). }
  split_and!.
  - done.
  - intros fs ss frs pos_id Hs Hf. unfold same_length, from_strings_frets,
      convert_strings_frets_to_placements. simpl.
    rewrite length_fmap, length_zip. lia.
  - done.
  - done.
  - intros. unfold same_length, add_note. simpl.
    rewrite !length_app. simpl. by rewrite Hlen.
  - intros s m q Hq.
    destruct (decide (fingers self = [])) as [Hf|Hf].
    + unfold shift in Hq. by rewrite Hf in Hq.
    + destruct (Hshift s m Hf) as (q' & Hq' & Hsame). congruence.
  - intros reverse q Hq.
    destruct (decide (pairs self = [])) as [He|He].
    + unfold sort_by_string in Hq. fold (pairs self) in Hq. rewrite He in Hq.
      by destruct reverse.
    + rewrite sort_by_string_Ok in Hq by done.
      injection Hq as <-. apply same_length_init.
  - intros q Hq.
    destruct (decide (pairs self = [])) as [He|He].
    + unfold sort_by_fret in Hq. fold (pairs self) in Hq. by rewrite He in Hq.
    + rewrite sort_by_fret_Ok in Hq by done.
      injection Hq as <-. apply same_length_init.
  - intros q Hq.
    destruct (decide (pairs self = [])) as [He|He].
    + unfold sort_by_finger in Hq. fold (pairs self) in Hq. by rewrite He in Hq.
    + rewrite sort_by_finger_Ok in Hq by done.
      injection Hq as <-. apply same_length_init.
  - intros [Hpairs Hf]%Hne s m reverse. split_and!.
    + destruct (Hshift s m Hf) as (q & Hq & _). by exists q.
    + eexists. by apply sort_by_string_Ok.
    + eexists. by apply sort_by_fret_Ok.
    + eexists. by apply sort_by_finger_Ok.
  - intros n. eexists. split; [apply get_full_position_Ok|]. simpl.
    split; [|done]. unfold Py.range. by rewrite length_fmap, length_seqZ.
Qed.

Lemma same_length_kept_witness :
  same_length (add_note (mkPosition [101; 203] [1; 2] (Some 7)) 3 0 0)
  ∧ ∃ q, sort_by_finger (mkPosition [101; 203] [1; 2] (Some 7)) = Ok q.
Proof.
  destruct (same_length_kept (mkPosition [101; 203] [1; 2] (Some 7)))
    as (_ & _ & _ & _ & Hadd & _ & _ & _ & _ & Hret & _); [reflexivity|].
  split; [apply Hadd|].
  destruct (Hret ltac:(done) 0 0 true) as (_ & _ & _ & Hq). exact Hq.
Defined.

(** ** [is_barre] *)

Lemma size_list_to_set_le (l : list Z) :
  (size (list_to_set l : gset Z) ≤ length l)%nat.
Proof.
  induction l as [|x l IH]; [done|].
  rewrite list_to_set_cons. simpl.
  destruct (decide (x ∈ l)) as [Hin|Hin].
  - rewrite subseteq_union_1_L; [lia|].
    apply singleton_subseteq_l. by apply elem_of_list_to_set.
  - rewrite size_union, size_singleton; [lia|].
    apply disjoint_singleton_l. by rewrite elem_of_list_to_set.
Qed.

Lemma size_list_to_set_NoDup (l : list Z) :
  size (list_to_set l : gset Z) = length l ↔ NoDup l.
Proof.
  split; [|apply size_list_to_set].
  induction l as [|x l IH]; [constructor|].
  rewrite list_to_set_cons. simpl. intros Hsize.
  destruct (decide (x ∈ l)) as [Hin|Hin].
  - rewrite subseteq_union_1_L in Hsize.
    + pose proof (size_list_to_set_le l). lia.
    + apply singleton_subseteq_l. by apply elem_of_list_to_set.
  - rewrite size_union, size_singleton in Hsize.
    + apply NoDup_cons. split; [done|]. apply IH. lia.
    + apply disjoint_singleton_l. by rewrite elem_of_list_to_set.
Qed.

Lemma occurrences_cons (f x : Z) (l : list Z) :
  occurrences f (x :: l)
  = ((if decide (x = f) then 1 else 0) + occurrences f l)%nat.
Proof. unfold occurrences. rewrite filter_cons. by case_decide. Qed.

Lemma occurrences_elem_of (f : Z) (l : list Z) :
  f ∈ l ↔ (0 < occurrences f l)%nat.
Proof.
  induction l as [|x l IH].
  - rewrite elem_of_nil. unfold occurrences. simpl. lia.
  - rewrite elem_of_cons, occurrences_cons, IH. case_decide; split; lia.
Qed.

Lemma NoDup_occurrences (l : list Z) :
  NoDup l ↔ ∀ f, (occurrences f l ≤ 1)%nat.
Proof.
  induction l as [|x l IH].
  - split; [|constructor]. intros _ f. unfold occurrences. simpl. lia.
  - rewrite NoDup_cons, IH. split.
    + intros [Hx Hl] f. rewrite occurrences_cons. case_decide as Hf.
      * subst. rewrite occurrences_elem_of in Hx. lia.
      * apply Hl.
    + intros H. split.
      * specialize (H x). rewrite occurrences_cons, decide_True in H by done.
        rewrite occurrences_elem_of. lia.
      * intros f. specialize (H f). rewrite occurrences_cons in H. lia.
Qed.

Lemma not_NoDup_occurrences (l : list Z) :
  ¬ NoDup l ↔ ∃ f, (1 < occurrences f l)%nat.
Proof.
  rewrite NoDup_occurrences. split.
  - induction l as [|x l IH]; intros H.
    + destruct H. intros f. unfold occurrences. simpl. lia.
    + destruct (decide (1 < occurrences x (x :: l))%nat) as [|Hx]; [by exists x|].
      destruct IH as [f Hf].
      * intros Hl. apply H. intros f.
        destruct (decide (f = x)) as [->|Hf]; [lia|].
        specialize (Hl f). rewrite occurrences_cons, decide_False by done. lia.
      * exists f. rewrite occurrences_cons. lia.
  - intros [f Hf] H. specialize (H f). lia.
Qed.

Lemma occurrences_non_quiet (f : Z) (l : list Z) :
  occurrences f (filter (λ finger, finger > 0) l)
  = if decide (f > 0) then occurrences f l else 0%nat.
Proof.
  induction l as [|x l IH].
  - unfold occurrences. simpl. by case_decide.
  - rewrite filter_cons. destruct (decide (x > 0)) as [Hx|Hx].
    + rewrite !occurrences_cons, IH. repeat case_decide; lia.
    + rewrite IH, occurrences_cons. repeat case_decide; lia.
Qed.

(** C9: [is_barre] holds exactly of the positions in which a finger above 0
    occurs more than once; so it holds of the fingers 2 2 0 0 0 0, and
    neither of 1 2 3 0 0 0 nor of 0 0 0 0 0 0. *)
Theorem is_barre_spec :
  (∀ self, is_barre self = true
           ↔ ∃ f, f > 0 ∧ (1 < occurrences f (fingers self))%nat)
  ∧ (∀ ps pos_id, is_barre (mkPosition ps [2; 2; 0; 0; 0; 0] pos_id) = true)
  ∧ (∀ ps pos_id, is_barre (mkPosition ps [1; 2; 3; 0; 0; 0] pos_id) = false)
  ∧ (∀ ps pos_id, is_barre (mkPosition ps [0; 0; 0; 0; 0; 0] pos_id) = false).
Proof.
  split_and!; [|by vm_compute..].
  intros self. unfold is_barre. cbv zeta.
  rewrite negb_true_iff, Nat.eqb_neq.
  split.
  - intros Hne.
    assert (¬ NoDup (filter (λ finger, finger > 0) (fingers self))) as Hdup.
    { intros Hnd. apply Hne. symmetry. by apply size_list_to_set. }
    apply not_NoDup_occurrences in Hdup as [f Hf].
    rewrite occurrences_non_quiet in Hf. exists f. case_decide; [done|lia].
  - intros (f & Hpos & Hf) Heq. symmetry in Heq.
    apply size_list_to_set_NoDup in Heq.
    pose proof (proj1 (NoDup_occurrences _) Heq f) as Hle. clear Heq. rename Hle into Heq. rewrite occurrences_non_quiet, decide_True in Heq by done.
    lia.
Qed.

(** ** Note names and numbers *)

Lemma round_trip_all (k : Z) : 0 ≤ k ≤ 127 → round_trip k = true.
Proof.
  intros Hk.
  assert (forallb round_trip (seqZ 0 128) = true) as Hall by (by vm_compute).
  rewrite forallb_forall in Hall.
  apply Hall, list_elem_of_In, elem_of_seqZ. lia.
Qed.

(** C6: a number from 0 to 127 has a note name, and the number of that name
    is the number again. *)
Theorem note2num_num2note (k : Z) :
  0 ≤ k ≤ 127 →
  ∃ name, num2note k = Ok name ∧ note2num name = Ok k.
Proof.
  intros Hrt%round_trip_all.
  unfold round_trip in Hrt.
  destruct (num2note k) as [name|] eqn:Hname; simpl in Hrt; [|done].
  exists name. split; [done|].
  destruct (note2num name) as [k'|]; [|done].
  by apply bool_decide_eq_true_1 in Hrt as ->.
Qed.

Lemma note2num_num2note_witness :
  ∃ name, num2note 61 = Ok name ∧ note2num name = Ok 61.
Proof. apply (note2num_num2note 61). lia. Defined.

Lemma str_getitem_Raise (s : string) (i : nat) (e : exn) :
  Py.str_getitem s i = Raise e → e = IndexError.
Proof. unfold Py.str_getitem. destruct (String.get i s); congruence. Qed.

Lemma int_Raise (s : string) (e : exn) :
  Py.int s = Raise e → e = ValueError (InvalidLiteral s).
Proof.
  unfold Py.int.
  destruct (match Py.rstrip (Py.lstrip s) with
            | String "-" body => (-1, body)
            | String "+" body => (1, body)
            | _ => (1, Py.rstrip (Py.lstrip s))
            end) as [sign body].
  destruct (Py.digits body 0 false); congruence.
Qed.

Lemma getitem_Raise {A} (l : list A) (i : Z) (e : exn) :
  Py.getitem l i = Raise e → e = IndexError.
Proof.
  unfold Py.getitem. cbv zeta.
  destruct (bool_decide (_ < 0)); [congruence|].
  destruct (l !! _); congruence.
Qed.

Lemma dict_getitem_Raise (d : gmap string Z) (k : string) (e : exn) :
  Py.dict_getitem d k = Raise e → e = KeyError k.
Proof. unfold Py.dict_getitem. destruct (d !! k); congruence. Qed.

(** The errors met before the range check are not out-of-range errors. *)
Lemma note2num_num_Raise (note : string) (e : exn) :
  note2num_num note = Raise e → ¬ out_of_range e.
Proof.
  unfold note2num_num. cbv zeta.
  destruct (Py.str_getitem note 0) as [letter|e0] eqn:H0; simpl;
    [|intros [= <-] Hr; apply str_getitem_Raise in H0; subst; exact Hr].
  destruct (Py.str_getitem note 1) as [c|e1] eqn:H1; simpl;
    [|intros [= <-] Hr; apply str_getitem_Raise in H1; subst; exact Hr].
  case_bool_decide.
  - destruct (Py.int (Py.str_from note 2)) as [octave|e2] eqn:H2; simpl;
      [|intros [= <-] Hr; apply int_Raise in H2; subst; exact Hr].
    destruct (Py.dict_getitem _ letter) as [base|e3] eqn:H3; simpl; [done|].
    intros [= <-] Hr. apply dict_getitem_Raise in H3. subst. exact Hr.
  - destruct (Py.int (Py.str_from note 1)) as [octave|e2] eqn:H2; simpl;
      [|intros [= <-] Hr; apply int_Raise in H2; subst; exact Hr].
    destruct (Py.dict_getitem _ letter) as [base|e3] eqn:H3; simpl; [done|].
    intros [= <-] Hr. apply dict_getitem_Raise in H3. subst. exact Hr.
Qed.

(** C7: [note2num] ends in an out-of-range error exactly when the number it
    computes is below 0 or above 127, and returns that number otherwise;
    [num2note] ends in one exactly when it is given such a number.  [G10] is
    127; [G#10], which makes 128, and [C-1], which makes -12, are refused. *)
Theorem out_of_range_exactly :
  (∀ note, (∃ e, note2num note = Raise e ∧ out_of_range e)
           ↔ ∃ num, note2num_num note = Ok num ∧ (num < 0 ∨ num > 127))
  ∧ (∀ note num, note2num_num note = Ok num →
       note2num note = if bool_decide (num < 0 ∨ num > 127)
                       then Raise (ValueError (NoteOutOfRange note num))
                       else Ok num)
  ∧ (∀ num, (∃ e, num2note num = Raise e ∧ out_of_range e)
            ↔ (num < 0 ∨ num > 127))
  ∧ (∀ num, 0 ≤ num ≤ 127 → ∃ name, num2note num = Ok name)
  ∧ note2num "G10" = Ok 127
  ∧ note2num "G#10" = Raise (ValueError (NoteOutOfRange "G#10" 128))
  ∧ note2num "C-1" = Raise (ValueError (NoteOutOfRange "C-1" (-12))).
Proof.
  split_and!; [| | | |by vm_compute..].
  - intros note. unfold note2num.
    destruct (note2num_num note) as [num|e'] eqn:Hnum; simpl.
    + case_bool_decide as Hr.
      * split; [by exists num|]. intros _. by eexists.
      * split; [by intros (e & [=] & _)|]. intros (? & [= <-] & ?). tauto.
    + split; [|by intros (? & [=] & _)].
      intros (e & [= <-] & He). by apply note2num_num_Raise in Hnum.
  - intros note num Hnum. unfold note2num. by rewrite Hnum.
  - intros num. unfold num2note. case_bool_decide as Hr.
    + split; [done|]. intros _. by eexists.
    + split; [|done]. intros (e & He & Hrange).
      destruct (Py.getitem _ _) as [name|e'] eqn:Hget; simpl in He; [done|].
      injection He as <-. apply getitem_Raise in Hget. subst. destruct Hrange.
  - intros num Hrt%round_trip_all. unfold round_trip in Hrt.
    destruct (num2note num) as [name|]; [by exists name|done].
Qed.

(** * Further properties of the code *)

(** ** More on the three sorts *)

Lemma sorted_idempotent {A} (key : A → Z) (reverse : bool) (l : list A) :
  Py.sorted key reverse (Py.sorted key reverse l) = Py.sorted key reverse l.
Proof.
  symmetry. destruct reverse.
  - apply sorted_reverse_unique; [apply sorted_descending|done].
  - apply sorted_unique; [apply sorted_ascending|done].
Qed.

Lemma sort_by_string_Raise self reverse :
  pairs self = [] → sort_by_string self reverse = Raise (ValueError UnpackEmpty).
Proof.
  intros H. unfold sort_by_string. fold (pairs self). rewrite H. by destruct reverse.
Qed.

Lemma sort_by_fret_Raise self :
  pairs self = [] → sort_by_fret self = Raise (ValueError UnpackEmpty).
Proof. intros H. unfold sort_by_fret. fold (pairs self). by rewrite H. Qed.

Lemma sort_by_finger_Raise self :
  pairs self = [] → sort_by_finger self = Raise (ValueError UnpackEmpty).
Proof. intros H. unfold sort_by_finger. fold (pairs self). by rewrite H. Qed.

(** What a sort returns, if it returns: the position of the sorted pairs. *)
Lemma sort_by_string_inv self reverse q :
  sort_by_string self reverse = Ok q →
  pairs self ≠ []
  ∧ q = NeckPosition_init ((Py.sorted (λ x, x.1) reverse (pairs self)).*1)
                          ((Py.sorted (λ x, x.1) reverse (pairs self)).*2) (id self).
Proof.
  intros Hq. destruct (decide (pairs self = [])) as [He|He].
  - by rewrite sort_by_string_Raise in Hq.
  - rewrite sort_by_string_Ok in Hq by done. by injection Hq as <-.
Qed.

Lemma sort_by_fret_inv self q :
  sort_by_fret self = Ok q →
  pairs self ≠ []
  ∧ q = NeckPosition_init ((Py.sorted (λ x, x.1 `mod` 100) false (pairs self)).*1)
                          ((Py.sorted (λ x, x.1 `mod` 100) false (pairs self)).*2)
                          (id self).
Proof.
  intros Hq. destruct (decide (pairs self = [])) as [He|He].
  - by rewrite sort_by_fret_Raise in Hq.
  - rewrite sort_by_fret_Ok in Hq by done. by injection Hq as <-.
Qed.

Lemma sort_by_finger_inv self q :
  sort_by_finger self = Ok q →
  pairs self ≠ []
  ∧ q = NeckPosition_init ((Py.sorted (λ x, x.2) false (pairs self)).*1)
                          ((Py.sorted (λ x, x.2) false (pairs self)).*2) (id self).
Proof.
  intros Hq. destruct (decide (pairs self = [])) as [He|He].
  - by rewrite sort_by_finger_Raise in Hq.
  - rewrite sort_by_finger_Ok in Hq by done. by injection Hq as <-.
Qed.

(** X1: on a position with at least one note, [sort_by_finger] returns a
    position whose fingers never decrease, with the pairs of the input as a
    multiset and its id; notes played by one finger keep their order. *)
Theorem sort_by_finger_ordered (self : NeckPosition) :
  placements self ≠ [] → fingers self ≠ [] →
  ∃ q, sort_by_finger self = Ok q
       ∧ StronglySorted Z.le (fingers q)
       ∧ pairs q ≡ₚ pairs self
       ∧ (∀ f, filter (λ a, a.2 = f) (pairs q) = filter (λ a, a.2 = f) (pairs self))
       ∧ id q = id self.
Proof.
  intros Hp Hf.
  assert (pairs self ≠ []) as Hne by (rewrite pairs_nil; tauto).
  eexists. split; [by apply sort_by_finger_Ok|]. cbv zeta.
  rewrite pairs_init. split_and!; [|apply sorted_Permutation| |done].
  - simpl. eapply StronglySorted_fmap; [|apply (sorted_ascending (λ x : Z * Z, x.2))].
    done.
  - intros f. apply (sorted_stable (λ x : Z * Z, x.2)).
Qed.

Lemma sort_by_finger_ordered_witness :
  ∃ q, sort_by_finger (mkPosition [100; 202; 302; 400] [3; 0; -1; 0] None) = Ok q
       ∧ StronglySorted Z.le (fingers q).
Proof.
  destruct (sort_by_finger_ordered (mkPosition [100; 202; 302; 400] [3; 0; -1; 0] None))
    as (q & Hq & Hs & _); [discriminate|discriminate|].
  exists q. split; [exact Hq|exact Hs].
Defined.

(** X2: with [reverse=False], [sort_by_string] returns a position whose
    placements, and so whose strings, never decrease. *)
Theorem sort_by_string_ascending (self : NeckPosition) :
  placements self ≠ [] → fingers self ≠ [] →
  ∃ q, sort_by_string self false = Ok q
       ∧ StronglySorted Z.le (placements q)
       ∧ StronglySorted Z.le (strings q)
       ∧ pairs q ≡ₚ pairs self
       ∧ id q = id self.
Proof.
  intros Hp Hf.
  assert (pairs self ≠ []) as Hne by (rewrite pairs_nil; tauto).
  eexists. split; [by apply sort_by_string_Ok|]. cbv zeta.
  rewrite pairs_init. split_and!; [| |apply sorted_Permutation|done].
  - simpl. eapply StronglySorted_fmap; [|apply (sorted_ascending (λ x : Z * Z, x.1))].
    done.
  - unfold strings. simpl. rewrite <- list_fmap_compose.
    eapply StronglySorted_fmap; [|apply (sorted_ascending (λ x : Z * Z, x.1))].
    intros [a ?] [b ?] Hab; simpl in *. apply Z.div_le_mono; lia.
Qed.

Lemma sort_by_string_ascending_witness :
  ∃ q, sort_by_string (mkPosition [302; 100; 203] [1; 2; 3] None) false = Ok q
       ∧ StronglySorted Z.le (strings q).
Proof.
  destruct (sort_by_string_ascending (mkPosition [302; 100; 203] [1; 2; 3] None))
    as (q & Hq & _ & Hs & _); [discriminate|discriminate|].
  exists q. split; [exact Hq|exact Hs].
Defined.

(** X3: [sort_by_fret] is stable: the notes of one fret are in the result in
    the order they had. *)
Theorem sort_by_fret_stable (self q : NeckPosition) (fret : Z) :
  sort_by_fret self = Ok q →
  filter (λ a, a.1 `mod` 100 = fret) (pairs q)
  = filter (λ a, a.1 `mod` 100 = fret) (pairs self).
Proof.
  intros [_ ->]%sort_by_fret_inv. rewrite pairs_init.
  apply (sorted_stable (λ x : Z * Z, x.1 `mod` 100)).
Qed.

Lemma sort_by_fret_stable_witness :
  filter (λ a, a.1 `mod` 100 = 2) (pairs (mkPosition [100; 302; 202] [1; 3; 2] None))
  = filter (λ a, a.1 `mod` 100 = 2) (pairs (mkPosition [302; 100; 202] [3; 1; 2] None)).
Proof.
  apply (sort_by_fret_stable (mkPosition [302; 100; 202] [3; 1; 2] None)).
  vm_compute. reflexivity.
Defined.

(** X4: a sort raises exactly when the position has no placements or no
    fingers; when it returns, the result has as many notes as the shorter of
    the two sequences (the placements or fingers beyond are dropped). *)
Theorem sorts_raise_iff (self : NeckPosition) (reverse : bool) :
  (sort_by_string self reverse = Raise (ValueError UnpackEmpty)
     ↔ placements self = [] ∨ fingers self = [])
  ∧ (sort_by_fret self = Raise (ValueError UnpackEmpty)
     ↔ placements self = [] ∨ fingers self = [])
  ∧ (sort_by_finger self = Raise (ValueError UnpackEmpty)
     ↔ placements self = [] ∨ fingers self = [])
  ∧ (∀ q, sort_by_string self reverse = Ok q ∨ sort_by_fret self = Ok q
          ∨ sort_by_finger self = Ok q →
          length (placements q) = (length (placements self) `min` length (fingers self))%nat
          ∧ length (fingers q) = (length (placements self) `min` length (fingers self))%nat).
Proof.
  rewrite <- pairs_nil. split_and!.
  - split; [|apply sort_by_string_Raise].
    intros H. destruct (decide (pairs self = [])) as [|He]; [done|].
    by rewrite sort_by_string_Ok in H.
  - split; [|apply sort_by_fret_Raise].
    intros H. destruct (decide (pairs self = [])) as [|He]; [done|].
    by rewrite sort_by_fret_Ok in H.
  - split; [|apply sort_by_finger_Raise].
    intros H. destruct (decide (pairs self = [])) as [|He]; [done|].
    by rewrite sort_by_finger_Ok in H.
  - assert (∀ key r, length (Py.sorted key r (pairs self))
                     = (length (placements self) `min` length (fingers self))%nat) as Hlen.
    { intros key r. rewrite (sorted_Permutation key r). apply length_zip. }
    intros q [[_ ->]%sort_by_string_inv|[[_ ->]%sort_by_fret_inv|[_ ->]%sort_by_finger_inv]];
      unfold NeckPosition_init; cbn [placements fingers];
      by rewrite !length_fmap, Hlen.
Qed.

Lemma bind_Ok {A B} (a : A) (f : A → result B) : (Ok a ≫= f) = f a.
Proof. done. Qed.

(** X5: sorting a sorted position changes nothing: each sort followed by
    itself does what the sort alone does (and raises when it raises). *)
Theorem sorts_idempotent (self : NeckPosition) (reverse : bool) :
  (sort_by_string self reverse ≫= (λ q, sort_by_string q reverse))
    = sort_by_string self reverse
  ∧ (sort_by_fret self ≫= sort_by_fret) = sort_by_fret self
  ∧ (sort_by_finger self ≫= sort_by_finger) = sort_by_finger self.
Proof.
  destruct (decide (pairs self = [])) as [He|Hne].
  { by rewrite sort_by_string_Raise, sort_by_fret_Raise, sort_by_finger_Raise. }
  rewrite sort_by_string_Ok, sort_by_fret_Ok, sort_by_finger_Ok by done.
  cbv zeta. rewrite !bind_Ok. split_and!.
  - rewrite sort_by_string_Ok; rewrite pairs_init; [|by rewrite sorted_nil].
    cbv zeta. by rewrite sorted_idempotent.
  - rewrite sort_by_fret_Ok; rewrite pairs_init; [|by rewrite sorted_nil].
    cbv zeta. by rewrite sorted_idempotent.
  - rewrite sort_by_finger_Ok; rewrite pairs_init; [|by rewrite sorted_nil].
    cbv zeta. by rewrite sorted_idempotent.
Qed.

(** ** More on [is_barre] *)

Lemma is_barre_NoDup (self : NeckPosition) :
  is_barre self = true ↔ ¬ NoDup (filter (λ finger, finger > 0) (fingers self)).
Proof.
  unfold is_barre. cbv zeta. rewrite negb_true_iff, Nat.eqb_neq.
  rewrite <- size_list_to_set_NoDup. split; intros H ?; by apply H.
Qed.

Lemma is_barre_eq (p q : NeckPosition) :
  (NoDup (filter (λ finger, finger > 0) (fingers p))
   ↔ NoDup (filter (λ finger, finger > 0) (fingers q))) →
  is_barre p = is_barre q.
Proof.
  intros H.
  pose proof (is_barre_NoDup p) as Hp. pose proof (is_barre_NoDup q) as Hq.
  destruct (is_barre p), (is_barre q); try done.
  - destruct (proj1 Hp eq_refl). apply H.
    destruct (decide (NoDup (filter (λ finger, finger > 0) (fingers q)))) as [|Hn];
      [done|]. by apply Hq in Hn.
  - destruct (proj1 Hq eq_refl). apply H.
    destruct (decide (NoDup (filter (λ finger, finger > 0) (fingers p)))) as [|Hn];
      [done|]. by apply Hp in Hn.
Qed.

Lemma is_barre_Permutation (p q : NeckPosition) :
  fingers p ≡ₚ fingers q → is_barre p = is_barre q.
Proof. intros H. apply is_barre_eq. by rewrite H. Qed.

(** X6: whether a position is a barre does not depend on the order of its
    notes: the three sorts, on a position with as many fingers as
    placements, return a position that is a barre exactly if the input is. *)
Theorem sorts_keep_barre (self q : NeckPosition) (reverse : bool) :
  same_length self →
  sort_by_string self reverse = Ok q ∨ sort_by_fret self = Ok q
    ∨ sort_by_finger self = Ok q →
  is_barre q = is_barre self.
Proof.
  intros Hlen Hq. apply is_barre_Permutation.
  destruct Hq as [[_ ->]%sort_by_string_inv
                 |[[_ ->]%sort_by_fret_inv|[_ ->]%sort_by_finger_inv]];
    by apply pairs_columns, sorted_Permutation.
Qed.

Lemma sorts_keep_barre_witness :
  is_barre (mkPosition [100; 201; 302] [1; 1; 2] None)
  = is_barre (mkPosition [302; 100; 201] [2; 1; 1] None).
Proof.
  apply (sorts_keep_barre (mkPosition [302; 100; 201] [2; 1; 1] None) _ false).
  - reflexivity.
  - right. left. vm_compute. reflexivity.
Defined.

(** X7: adding a note makes a barre of a position exactly if the position is
    one already or the new finger is above 0 and plays another note. *)
Theorem add_note_barre (self : NeckPosition) (string fret finger : Z) :
  is_barre (add_note self string fret finger) = true
  ↔ is_barre self = true ∨ (finger > 0 ∧ finger ∈ fingers self).
Proof.
  rewrite !is_barre_NoDup. unfold add_note. cbn [fingers].
  rewrite filter_app, filter_singleton by exact [].
  destruct (decide (finger > 0)) as [Hpos|Hpos].
  - rewrite NoDup_app. split.
    + intros Hn.
      destruct (decide (NoDup (filter (λ f, f > 0) (fingers self)))) as [Hnd|]; [|by left].
      destruct (decide (finger ∈ fingers self)) as [|Hnin]; [by right|].
      destruct Hn. split_and!; [done| |apply NoDup_singleton].
      intros x [_ Hx]%list_elem_of_filter ->%list_elem_of_singleton. done.
    + intros [Hn|[_ Hin]] (Hnd & Hdisj & _); [done|].
      apply (Hdisj finger); [|by apply list_elem_of_singleton].
      by apply list_elem_of_filter.
  - rewrite app_nil_r. split; [by left|]. intros [|[]]; done.
Qed.

(** ** More on [shift] *)

Lemma for_app {X S} (xs ys : list X) (body : X → S → result S) (s : S) :
  Py.for_ (xs ++ ys) body s = Py.for_ xs body s ≫= Py.for_ ys body.
Proof.
  revert s. induction xs as [|x xs IH]; intros s; simpl; [done|].
  destruct (body x s) as [s'|e]; simpl; [apply IH|done].
Qed.

Lemma shift_loop_prefix (fs : list Z) (shift : Z) (n : nat) :
  (n ≤ length fs)%nat →
  Py.for_ (Py.range (Z.of_nat n)) (λ i new_fingers,
    f ← Py.getitem fs i;
    if bool_decide (f > 0) then mret (new_fingers ++ [f + shift])
    else mret (new_fingers ++ [f])) []
  = Ok (shift_finger shift <$> take n fs).
Proof.
  intros Hn.
  rewrite (for_append (λ i, shift_finger shift (default 0 (fs !! Z.to_nat i)))).
  - f_equal. simpl. apply list_eq. intros i.
    unfold Py.range. rewrite !list_lookup_fmap, lookup_take.
    case_decide as Hi.
    + rewrite lookup_seqZ_lt by lia.
      cbn [fmap option_fmap option_map]. rewrite Z.add_0_l, Nat2Z.id.
      destruct (lookup_lt_is_Some_2 fs i) as [f ->]; [lia|]. done.
    + rewrite lookup_seqZ_ge; [done|lia].
  - intros i s Hi. unfold Py.range in Hi. apply elem_of_seqZ in Hi.
    rewrite getitem_nonneg by lia.
    destruct (lookup_lt_is_Some_2 fs (Z.to_nat i)) as [f Hf]; [lia|].
    rewrite Hf. simpl. unfold shift_finger. by case_bool_decide.
Qed.

Lemma shift_loop_overrun (fs : list Z) (shift : Z) (n : nat) :
  (length fs < n)%nat →
  Py.for_ (Py.range (Z.of_nat n)) (λ i new_fingers,
    f ← Py.getitem fs i;
    if bool_decide (f > 0) then mret (new_fingers ++ [f + shift])
    else mret (new_fingers ++ [f])) []
  = Raise IndexError.
Proof.
  intros Hn. unfold Py.range.
  replace (Z.of_nat n) with (Z.of_nat (length fs) + (Z.of_nat n - Z.of_nat (length fs)))
    by lia.
  rewrite seqZ_app, for_app by lia.
  fold (Py.range (Z.of_nat (length fs))).
  rewrite shift_loop_prefix by done. rewrite bind_Ok.
  rewrite seqZ_cons by lia. simpl.
  rewrite getitem_nonneg by lia.
  by rewrite Z.add_0_l, Nat2Z.id, lookup_ge_None_2.
Qed.

(** [shift] with its loop worked out, whatever the two lengths. *)
Lemma shift_cases (self : NeckPosition) (shift_by max_finger mx : Z) :
  is_max mx (fingers self) →
  shift self shift_by max_finger =
    if bool_decide (max_finger ∈ fingers self ∨ mx + shift_by > max_finger)
    then Ok self
    else if decide ((length (placements self) ≤ length (fingers self))%nat)
         then Ok (mkPosition (placements self)
                    (shift_finger shift_by
                       <$> take (length (placements self)) (fingers self))
                    (id self))
         else Raise IndexError.
Proof.
  intros Hmx. unfold shift, Py.contains.
  case_bool_decide as Hin.
  { by rewrite bool_decide_eq_true_2 by tauto. }
  rewrite (max_Ok mx) by done. rewrite bind_Ok.
  case_bool_decide as Hgt.
  { by rewrite bool_decide_eq_true_2 by tauto. }
  rewrite bool_decide_eq_false_2 by tauto.
  case_decide.
  - by rewrite shift_loop_prefix.
  - by rewrite shift_loop_overrun by lia.
Qed.

Lemma shift_no_fingers (self : NeckPosition) (shift_by max_finger : Z) :
  fingers self = [] → shift self shift_by max_finger = Raise (ValueError EmptyMax).
Proof. intros Hf. unfold shift. by rewrite Hf. Qed.

(** X8: [shift] raises in two cases only: for want of a finger, when the
    greatest is asked for, and with an [IndexError], when it is to move the
    fingers of a position that has more placements than fingers. *)
Theorem shift_raises (self : NeckPosition) (shift_by max_finger : Z) :
  (shift self shift_by max_finger = Raise (ValueError EmptyMax) ↔ fingers self = [])
  ∧ (∀ mx, is_max mx (fingers self) →
       (shift self shift_by max_finger = Raise IndexError
        ↔ (max_finger ∉ fingers self) ∧ mx + shift_by ≤ max_finger
          ∧ (length (fingers self) < length (placements self))%nat))
  ∧ (∀ e, shift self shift_by max_finger = Raise e →
          e = ValueError EmptyMax ∨ e = IndexError).
Proof.
  split_and!.
  - split; [|apply shift_no_fingers]. intros H.
    destruct (decide (fingers self = [])) as [|[mx Hmx]%max_nonempty]; [done|].
    rewrite (shift_cases self _ _ mx Hmx) in H. by repeat case_match.
  - intros mx Hmx. rewrite (shift_cases self _ _ mx Hmx).
    case_bool_decide as Hc.
    { split; [done|]. intros (? & ? & _). destruct Hc; [done|lia]. }
    case_decide.
    { split; [done|]. intros (_ & _ & ?). lia. }
    split; [|done]. intros _. split_and!; [tauto|lia|lia].
  - intros e He.
    destruct (decide (fingers self = [])) as [Hf|[mx Hmx]%max_nonempty].
    + rewrite shift_no_fingers in He by done. left. congruence.
    + rewrite (shift_cases self _ _ mx Hmx) in He. right.
      repeat case_match; congruence.
Qed.

(** X9: when [shift] returns, the placements and the id are untouched, and
    the fingers are either as they were or the moved fingers of the notes
    that have a placement: fingers beyond the last placement are dropped. *)
Theorem shift_result (self q : NeckPosition) (shift_by max_finger : Z) :
  shift self shift_by max_finger = Ok q →
  placements q = placements self
  ∧ id q = id self
  ∧ (fingers q = fingers self
     ∨ ((length (placements self) ≤ length (fingers self))%nat
        ∧ fingers q = shift_finger shift_by
                        <$> take (length (placements self)) (fingers self))).
Proof.
  intros Hq.
  destruct (decide (fingers self = [])) as [Hf|[mx Hmx]%max_nonempty].
  { by rewrite shift_no_fingers in Hq. }
  rewrite (shift_cases self _ _ mx Hmx) in Hq.
  case_bool_decide; [injection Hq as <-; tauto|].
  case_decide; [|done]. injection Hq as <-. simpl. tauto.
Qed.

Lemma shift_result_witness :
  fingers (mkPosition [101; 202] [2; 3] (Some 1)) = [1; 2; 3]
  ∨ ((length [101; 202] ≤ length [1; 2; 3])%nat
     ∧ fingers (mkPosition [101; 202] [2; 3] (Some 1))
       = shift_finger 1 <$> take (length [101; 202]) [1; 2; 3]).
Proof.
  apply (shift_result (mkPosition [101; 202] [1; 2; 3] (Some 1))
                      (mkPosition [101; 202] [2; 3] (Some 1)) 1 4).
  vm_compute. reflexivity.
Defined.

(** X10: [shift] never takes a finger beyond [max_finger]: if no finger of
    the position is above [max_finger], none is in the result. *)
Theorem shift_keeps_bound (self q : NeckPosition) (shift_by max_finger : Z) :
  (∀ f, f ∈ fingers self → f ≤ max_finger) →
  shift self shift_by max_finger = Ok q →
  ∀ f, f ∈ fingers q → f ≤ max_finger.
Proof.
  intros Hbound Hq.
  destruct (decide (fingers self = [])) as [Hf|[mx Hmx]%max_nonempty].
  { by rewrite shift_no_fingers in Hq. }
  rewrite (shift_cases self _ _ mx Hmx) in Hq.
  case_bool_decide as Hc; [by injection Hq as <-|].
  case_decide; [|done]. injection Hq as <-. simpl.
  intros f (g & -> & Hg)%list_elem_of_fmap.
  assert (g ∈ fingers self) as Hin.
  { apply elem_of_take in Hg as (i & Hi & _). by eapply list_elem_of_lookup_2. }
  unfold shift_finger. case_bool_decide; [|by apply Hbound].
  destruct Hmx as [_ Hmx]. apply Hmx in Hin. lia.
Qed.

Lemma shift_keeps_bound_witness :
  Forall (λ f, f ≤ 4) (fingers (mkPosition [101; 202; 300] [2; 3; 0] None)).
Proof.
  apply Forall_forall.
  apply (shift_keeps_bound (mkPosition [101; 202; 300] [1; 2; 0] None) _ 1 4).
  - simpl. intros f. rewrite !elem_of_cons, elem_of_nil.
    intros [->|[->|[->|[]]]]; lia.
  - vm_compute. reflexivity.
Defined.

Lemma filter_shift_finger (shift_by : Z) (l : list Z) :
  0 ≤ shift_by →
  filter (λ finger, finger > 0) (shift_finger shift_by <$> l)
  = (λ f, f + shift_by) <$> filter (λ finger, finger > 0) l.
Proof.
  intros Hs. induction l as [|x l IH]; [done|].
  rewrite fmap_cons, !filter_cons, IH. unfold shift_finger.
  case_bool_decide; repeat case_decide; try done; lia.
Qed.

(** X11: moving the fingers up keeps a barre a barre and makes none: for
    [shift >= 0] and a position with as many fingers as placements, the
    result of [shift] is a barre exactly if the position is. *)
Theorem shift_keeps_barre (self q : NeckPosition) (shift_by max_finger : Z) :
  0 ≤ shift_by →
  same_length self →
  shift self shift_by max_finger = Ok q →
  is_barre q = is_barre self.
Proof.
  intros Hs Hlen Hq.
  destruct (decide (fingers self = [])) as [Hf|[mx Hmx]%max_nonempty].
  { by rewrite shift_no_fingers in Hq. }
  rewrite (shift_Ok self _ _ mx Hlen Hmx) in Hq. injection Hq as <-.
  case_bool_decide; [done|].
  apply is_barre_eq. cbn [fingers].
  rewrite filter_shift_finger by done.
  assert (Inj (=) (=) (λ f : Z, f + shift_by)) by (intros x y; lia).
  apply (NoDup_fmap _).
Qed.

Lemma shift_keeps_barre_witness :
  is_barre (mkPosition [101; 201; 302] [2; 2; 3] None)
  = is_barre (mkPosition [101; 201; 302] [1; 1; 2] None).
Proof.
  apply (shift_keeps_barre (mkPosition [101; 201; 302] [1; 1; 2] None) _ 1 4).
  - lia.
  - reflexivity.
  - vm_compute. reflexivity.
Defined.

(** X12: [shift] by 0 leaves a position with fingers, as many as it has
    placements, as it is. *)
Theorem shift_zero (self : NeckPosition) (max_finger : Z) :
  same_length self → fingers self ≠ [] →
  shift self 0 max_finger = Ok self.
Proof.
  intros Hlen [mx Hmx]%max_nonempty.
  rewrite (shift_Ok self _ _ mx Hlen Hmx). case_bool_decide; [done|].
  f_equal. destruct self as [ps fs i]. simpl. f_equal.
  rewrite <- (list_fmap_id fs) at 2. apply list_fmap_ext.
  intros _ f _. unfold shift_finger. case_bool_decide; simpl; lia.
Qed.

Lemma shift_zero_witness :
  shift (mkPosition [101; 202; 300] [1; 2; 0] None) 0 4
  = Ok (mkPosition [101; 202; 300] [1; 2; 0] None).
Proof.
  apply (shift_zero (mkPosition [101; 202; 300] [1; 2; 0] None) 4).
  - reflexivity.
  - discriminate.
Defined.

(** ** Strings, frets and placements *)

Lemma placement_decode (string fret : Z) :
  (string * 100 + fret) / 100 = string + fret / 100
  ∧ (string * 100 + fret) `mod` 100 = fret `mod` 100.
Proof.
  split.
  - rewrite Z.add_comm, Z.div_add by lia. lia.
  - by rewrite Z.add_comm, Z.mod_add by lia.
Qed.

Lemma placement_encode (p : Z) : p / 100 * 100 + p `mod` 100 = p.
Proof. pose proof (Z.div_mod p 100). lia. Qed.

Lemma convert_strings_frets (ps : list Z) :
  convert_strings_frets_to_placements ((λ note, note / 100) <$> ps)
                                      ((λ note, note `mod` 100) <$> ps) = ps.
Proof.
  unfold convert_strings_frets_to_placements.
  induction ps as [|p ps IH]; [done|].
  cbn. cbn in IH. rewrite IH. f_equal. apply placement_encode.
Qed.

(** X13: the dictionary of [to_json] has the four keys strings, frets,
    fingers and id, and loses nothing: [from_strings_frets] makes the
    position again from its values, whatever the placements are. *)
Theorem to_json_round_trip (self : NeckPosition) :
  dom (to_json self) = ({["strings"; "frets"; "fingers"; "id"]} : gset string)
  ∧ ∃ ss fs gs,
      to_json self !! "strings" = Some (PyList ss)
      ∧ to_json self !! "frets" = Some (PyList fs)
      ∧ to_json self !! "fingers" = Some (PyList gs)
      ∧ to_json self !! "id" = Some (match id self with
                                     | Some n => PyInt n
                                     | None => PyNone
                                     end)
      ∧ length ss = length (placements self)
      ∧ length fs = length (placements self)
      ∧ from_strings_frets gs ss fs (id self) = self.
Proof.
  split.
  - unfold to_json. rewrite !dom_insert_L, dom_singleton_L. set_solver.
  - exists (strings self), (frets self), (fingers self).
    split_and!; [done..| | |].
    + unfold strings. by rewrite length_fmap.
    + unfold frets. by rewrite length_fmap.
    + unfold from_strings_frets, strings, frets, NeckPosition_init. cbv zeta.
      rewrite convert_strings_frets. by destruct self.
Qed.

Lemma strings_convert (ss fs : list Z) :
  (λ note, note / 100) <$> convert_strings_frets_to_placements ss fs
  = zip_with (λ s f, s + f / 100) ss fs.
Proof.
  unfold convert_strings_frets_to_placements.
  revert fs. induction ss as [|s ss IH]; intros [|f fs]; try done.
  cbn. cbn in IH. rewrite IH. f_equal. apply placement_decode.
Qed.

Lemma frets_convert (ss fs : list Z) :
  length ss = length fs →
  (λ note, note `mod` 100) <$> convert_strings_frets_to_placements ss fs
  = (λ f, f `mod` 100) <$> fs.
Proof.
  unfold convert_strings_frets_to_placements.
  revert fs. induction ss as [|s ss IH]; intros [|f fs] Hlen; try done.
  cbn. cbn in IH. rewrite IH by (by injection Hlen). f_equal. apply placement_decode.
Qed.

(** X14: strings and frets of equal number come back from
    [from_strings_frets] exactly when every fret is from 0 to 99; a fret
    outside is read back modulo 100, the rest being counted as strings. *)
Theorem from_strings_frets_decode (gs ss fs : list Z) (pos_id : option Z) :
  length ss = length fs →
  strings (from_strings_frets gs ss fs pos_id) = zip_with (λ s f, s + f / 100) ss fs
  ∧ frets (from_strings_frets gs ss fs pos_id) = (λ f, f `mod` 100) <$> fs
  ∧ (strings (from_strings_frets gs ss fs pos_id) = ss
     ∧ frets (from_strings_frets gs ss fs pos_id) = fs
     ↔ Forall (λ f, 0 ≤ f < 100) fs).
Proof.
  intros Hlen.
  unfold strings, frets, from_strings_frets.
  cbn [placements NeckPosition_init]. cbv zeta.
  rewrite strings_convert, frets_convert by done.
  split_and!; [done..|]. split.
  - intros [_ Hf]. clear Hlen. induction fs as [|f fs IH]; [constructor|].
    injection Hf as Hf Hfs. constructor; [|by apply IH].
    rewrite <- Hf. apply Z.mod_pos_bound. lia.
  - intros Hrange. revert ss Hlen.
    induction Hrange as [|f fs Hf Hfs IH]; intros [|s ss] Hlen; try done.
    destruct (IH ss) as [IHs IHf]; [by injection Hlen|].
    cbn. cbn in IHs, IHf. rewrite IHs, IHf, Z.div_small, Z.mod_small by lia.
    split; f_equal; lia.
Qed.

Lemma from_strings_frets_decode_witness :
  strings (from_strings_frets [1; 2; 3] [1; 2; 3] [0; 2; 12] None) = [1; 2; 3]
  ∧ frets (from_strings_frets [1; 2; 3] [1; 2; 3] [0; 2; 12] None) = [0; 2; 12].
Proof.
  apply (from_strings_frets_decode [1; 2; 3] [1; 2; 3] [0; 2; 12] None).
  - reflexivity.
  - repeat constructor; lia.
Defined.

(** X15: of strings and frets of unequal number, [from_strings_frets] uses
    as many as there are of the fewer, and leaves the fingers as given. *)
Theorem from_strings_frets_shorter (gs ss fs : list Z) (pos_id : option Z) :
  from_strings_frets gs ss fs pos_id
  = from_strings_frets gs (take (length ss `min` length fs) ss)
                          (take (length ss `min` length fs) fs) pos_id
  ∧ length (placements (from_strings_frets gs ss fs pos_id))
    = (length ss `min` length fs)%nat
  ∧ fingers (from_strings_frets gs ss fs pos_id) = gs.
Proof.
  unfold from_strings_frets, convert_strings_frets_to_placements, NeckPosition_init.
  cbv zeta. cbn [placements fingers].
  split_and!; [|by rewrite length_fmap, length_zip|done].
  do 2 f_equal.
  revert fs. induction ss as [|s ss IH]; intros [|f fs]; try done.
  cbn. f_equal. apply IH.
Qed.

(** X16: adding a note to the position of some strings and frets gives the
    position of the strings and frets with those of the note at the end. *)
Theorem add_note_from_strings_frets (gs ss fs : list Z) (pos_id : option Z)
    (string fret finger : Z) :
  length ss = length fs →
  add_note (from_strings_frets gs ss fs pos_id) string fret finger
  = from_strings_frets (gs ++ [finger]) (ss ++ [string]) (fs ++ [fret]) pos_id.
Proof.
  intros Hlen.
  unfold add_note, from_strings_frets, convert_strings_frets_to_placements,
    NeckPosition_init. cbv zeta. cbn [placements fingers id].
  f_equal. by rewrite (zip_with_app pair ss [string] fs [fret] Hlen), fmap_app.
Qed.

Lemma add_note_from_strings_frets_witness :
  add_note (from_strings_frets [1; 2] [1; 2] [0; 3] None) 3 5 4
  = from_strings_frets [1; 2; 4] [1; 2; 3] [0; 3; 5] None.
Proof.
  apply (add_note_from_strings_frets [1; 2] [1; 2] [0; 3] None 3 5 4).
  reflexivity.
Defined.

(** X17: after [add_note] with a fret from 0 to 99, the position has the
    string, the fret and the finger of the note at the end of its strings,
    frets and fingers. *)
Theorem add_note_decode (self : NeckPosition) (string fret finger : Z) :
  0 ≤ fret < 100 →
  strings (add_note self string fret finger) = strings self ++ [string]
  ∧ frets (add_note self string fret finger) = frets self ++ [fret]
  ∧ fingers (add_note self string fret finger) = fingers self ++ [finger]
  ∧ id (add_note self string fret finger) = id self.
Proof.
  intros Hfret. unfold strings, frets, add_note. cbn [placements fingers id].
  rewrite !fmap_app. cbn.
  destruct (placement_decode string fret) as [-> ->].
  by rewrite Z.div_small, Z.mod_small, Z.add_0_r by lia.
Qed.

Lemma add_note_decode_witness :
  strings (add_note (mkPosition [100; 203] [1; 2] None) 3 5 4) = [1; 2] ++ [3]
  ∧ frets (add_note (mkPosition [100; 203] [1; 2] None) 3 5 4) = [0; 3] ++ [5].
Proof.
  destruct (add_note_decode (mkPosition [100; 203] [1; 2] None) 3 5 4)
    as (Hs & Hf & _); [lia|].
  split; [exact Hs|exact Hf].
Defined.

(** ** More on [get_full_position] *)

Lemma placement_of_string_cases (self : NeckPosition) (i : Z) :
  (i ∈ strings self
   ∧ placement_of_string self i ∈ placements self
   ∧ placement_of_string self i / 100 = i)
  ∨ ((i ∉ strings self) ∧ placement_of_string self i = -1).
Proof.
  unfold placement_of_string.
  destruct (list_find _ _) as [[j p]|] eqn:Hfind.
  - apply list_find_Some in Hfind as (Hp & Hstr & _). left.
    apply list_elem_of_lookup_2 in Hp. split_and!; [|done..].
    unfold strings. apply list_elem_of_fmap. by exists p.
  - apply list_find_None in Hfind. rewrite Forall_forall in Hfind. right.
    split; [|done]. unfold strings.
    intros (p & Hp & Hin)%list_elem_of_fmap. by destruct (Hfind p Hin).
Qed.

Lemma full_position_lookup (self : NeckPosition) (n : Z) (j : nat) (y : Z) :
  (placement_of_string self <$> Py.range n) !! j = Some y ↔
  y = placement_of_string self (Z.of_nat j) ∧ Z.of_nat j < n.
Proof.
  unfold Py.range. rewrite list_lookup_fmap.
  destruct (decide (Z.of_nat j < n)) as [Hj|Hj].
  - rewrite lookup_seqZ_lt by done. cbn. rewrite Z.add_0_l.
    split; [by intros [= <-]|by intros [-> _]].
  - rewrite lookup_seqZ_ge by lia. cbn. split; [done|]. intros [_ ?]. lia.
Qed.

(** In a full position, string [i] has the placement it has in the position
    the full position is made of. *)
Lemma full_position_placement (self : NeckPosition) (n i : Z) (fs : list Z) pos_id :
  0 ≤ i < n →
  placement_of_string
    (mkPosition (placement_of_string self <$> Py.range n) fs pos_id) i
  = placement_of_string self i.
Proof.
  intros Hi.
  assert (∀ j, 0 ≤ j → placement_of_string self j / 100 = i →
               j = i ∧ i ∈ strings self) as Hstring.
  { intros j Hj Hdiv.
    destruct (placement_of_string_cases self j) as [(Hin & _ & Hs)|[_ Hs]].
    - split; [lia|]. by replace i with j by lia.
    - rewrite Hs in Hdiv. change (-1 / 100) with (-1) in Hdiv. lia. }
  unfold placement_of_string at 1. cbn [placements].
  destruct (list_find _ _) as [[j p]|] eqn:Hfind.
  - apply list_find_Some in Hfind as (Hp & Hstr & _).
    apply full_position_lookup in Hp as [-> Hj].
    destruct (Hstring (Z.of_nat j)) as [<- _]; [lia|done|done].
  - apply list_find_None in Hfind. rewrite Forall_forall in Hfind.
    destruct (placement_of_string_cases self i) as [(_ & _ & Hs)|[_ Hs]]; [|done].
    destruct (Hfind (placement_of_string self i)); [|done].
    apply list_elem_of_lookup. exists (Z.to_nat i).
    apply full_position_lookup. rewrite Z2Nat.id by lia. split; [done|lia].
Qed.

(** X18: [get_full_position] of a full position is that full position:
    called twice with one number of strings, it returns what it returns
    when called once. *)
Theorem get_full_position_idempotent (self : NeckPosition) (num_fingers : Z) :
  (get_full_position self num_fingers ≫= (λ q, get_full_position q num_fingers))
  = get_full_position self num_fingers.
Proof.
  rewrite (get_full_position_Ok self), bind_Ok, get_full_position_Ok.
  cbn [fingers]. do 2 f_equal.
  apply list_fmap_ext. intros j i Hi.
  apply full_position_placement.
  unfold Py.range in Hi. apply lookup_seqZ in Hi. lia.
Qed.

(** X19: in the position that [get_full_position] returns, the note at index
    [i] is on string [i] if the position has a note there; if not, the
    placement [-1] stands there, which reads as string -1 and fret 99. *)
Theorem get_full_position_strings (self : NeckPosition) (num_fingers i : Z) :
  0 ≤ i < num_fingers →
  ∃ q, get_full_position self num_fingers = Ok q
       ∧ (i ∈ strings self → strings q !! Z.to_nat i = Some i)
       ∧ (i ∉ strings self →
            strings q !! Z.to_nat i = Some (-1)
            ∧ frets q !! Z.to_nat i = Some 99).
Proof.
  intros Hi. eexists. split; [apply get_full_position_Ok|].
  assert ((placement_of_string self <$> Py.range num_fingers) !! Z.to_nat i
          = Some (placement_of_string self i)) as Hl.
  { apply full_position_lookup. rewrite Z2Nat.id by lia. split; [done|lia]. }
  destruct (placement_of_string_cases self i) as [(Hin & _ & Hs)|[Hin Hs]].
  - split; [|done]. intros _. unfold strings at 1. cbn [placements].
    erewrite list_lookup_fmap_Some_2 by exact Hl. by rewrite Hs.
  - split; [done|]. intros _. unfold strings at 1, frets. cbn [placements].
    erewrite !list_lookup_fmap_Some_2 by exact Hl. by rewrite Hs.
Qed.

Lemma get_full_position_strings_witness :
  ∃ q, get_full_position (mkPosition [0; 203] [1; 2] None) 6 = Ok q
       ∧ strings q !! 2%nat = Some 2
       ∧ strings q !! 1%nat = Some (-1)
       ∧ frets q !! 1%nat = Some 99.
Proof.
  destruct (get_full_position_strings (mkPosition [0; 203] [1; 2] None) 6 2)
    as (q & Hq & H2 & _); [lia|].
  destruct (get_full_position_strings (mkPosition [0; 203] [1; 2] None) 6 1)
    as (q' & Hq' & _ & H1); [lia|].
  assert (q' = q) as -> by congruence.
  exists q. split; [exact Hq|]. split.
  - apply H2. right. left.
  - apply H1. intros Hin%list_elem_of_In. vm_compute in Hin.
    destruct Hin as [|[|[]]]; discriminate.
Defined.

(** X20: [get_full_position] makes up no note: a placement of its result
    other than [-1] is a placement of the position, on one of the strings
    [0 .. num_fingers - 1]. *)
Theorem get_full_position_sound (self q : NeckPosition) (num_fingers p : Z) :
  get_full_position self num_fingers = Ok q →
  p ∈ placements q →
  p = -1 ∨ (p ∈ placements self ∧ 0 ≤ p / 100 < num_fingers).
Proof.
  rewrite get_full_position_Ok. intros [= <-]. cbn [placements].
  intros (i & -> & Hi)%list_elem_of_fmap.
  unfold Py.range in Hi. apply elem_of_seqZ in Hi.
  destruct (placement_of_string_cases self i) as [(_ & Hin & Hs)|[_ Hs]].
  - right. split; [done|lia].
  - by left.
Qed.

Lemma get_full_position_sound_witness :
  203 = -1 ∨ (203 ∈ placements (mkPosition [0; 203; 905] [1; 2; 3] None)
              ∧ 0 ≤ 203 / 100 < 6).
Proof.
  apply (get_full_position_sound (mkPosition [0; 203; 905] [1; 2; 3] None)
           (mkPosition [0; -1; 203; -1; -1; -1] [1; 2; 3] None) 6 203).
  - vm_compute. reflexivity.
  - simpl. do 2 right. left.
Defined.

(** X21: [get_full_position] loses no note of a position that plays no
    string twice and only strings [0 .. num_fingers - 1]: every placement of
    the position is in the result, at the index of its string. *)
Theorem get_full_position_complete (self : NeckPosition) (num_fingers p : Z) :
  NoDup (strings self) →
  (∀ s, s ∈ strings self → 0 ≤ s < num_fingers) →
  p ∈ placements self →
  ∃ q, get_full_position self num_fingers = Ok q
       ∧ placements q !! Z.to_nat (p / 100) = Some p.
Proof.
  intros Hnd Hrange Hp. eexists. split; [apply get_full_position_Ok|].
  cbn [placements].
  assert (0 ≤ p / 100 < num_fingers) as Hs.
  { apply Hrange. unfold strings. apply list_elem_of_fmap. by exists p. }
  apply full_position_lookup. rewrite Z2Nat.id by lia. split; [|lia].
  unfold placement_of_string.
  apply list_elem_of_lookup in Hp as [j Hj].
  destruct (list_find _ _) as [[j' p']|] eqn:Hfind.
  - apply list_find_Some in Hfind as (Hj' & Hstr & _).
    assert (j = j') as <-; [|congruence].
    apply (NoDup_lookup (strings self) j j' (p / 100)); [done|..];
      unfold strings; rewrite list_lookup_fmap.
    + by rewrite Hj.
    + rewrite Hj'. cbn. by rewrite Hstr.
  - apply list_find_None in Hfind. rewrite Forall_forall in Hfind.
    destruct (Hfind p); [by eapply list_elem_of_lookup_2|done].
Qed.

Lemma get_full_position_complete_witness :
  ∃ q, get_full_position (mkPosition [302; 100] [2; 1] None) 6 = Ok q
       ∧ placements q !! 3%nat = Some 302.
Proof.
  apply (get_full_position_complete (mkPosition [302; 100] [2; 1] None) 6 302).
  - apply NoDup_ListNoDup. vm_compute. repeat constructor; simpl; intuition discriminate.
  - intros s Hs%list_elem_of_In. vm_compute in Hs.
    destruct Hs as [<-|[<-|[]]]; lia.
  - left.
Defined.

(** ** More on note names and numbers *)

Lemma note2num_Ok_range (note : string) (k : Z) :
  note2num note = Ok k → note2num_num note = Ok k ∧ 0 ≤ k ≤ 127.
Proof.
  unfold note2num. destruct (note2num_num note) as [num|]; [|done].
  rewrite bind_Ok. case_bool_decide; [done|]. intros [= <-]. split; [done|lia].
Qed.

Lemma num2note_Ok_range (k : Z) (name : string) :
  num2note k = Ok name → 0 ≤ k ≤ 127.
Proof. unfold num2note. case_bool_decide; [done|]. intros _. lia. Qed.

(** X22: the number of a note name is from 0 to 127 and has a name of its own
    (with a sharp, where the note name had a flat) that stands for the same
    number. *)
Theorem num2note_note2num (note : string) (k : Z) :
  note2num note = Ok k →
  0 ≤ k ≤ 127 ∧ ∃ name, num2note k = Ok name ∧ note2num name = Ok k.
Proof.
  intros [_ Hk]%note2num_Ok_range. split; [done|].
  apply round_trip_all in Hk. unfold round_trip in Hk.
  destruct (num2note k) as [name|]; [|done]. rewrite bind_Ok in Hk.
  exists name. split; [done|].
  destruct (note2num name) as [k'|]; [|done].
  by apply bool_decide_eq_true_1 in Hk as ->.
Qed.

Lemma num2note_note2num_witness :
  0 ≤ 46 ≤ 127 ∧ ∃ name, num2note 46 = Ok name ∧ note2num name = Ok 46.
Proof. apply (num2note_note2num "Bb3" 46). vm_compute. reflexivity. Defined.

(** X23: [num2note] gives different numbers different names. *)
Theorem num2note_inj (a b : Z) (name_a name_b : string) :
  a ≠ b → num2note a = Ok name_a → num2note b = Ok name_b → name_a ≠ name_b.
Proof.
  intros Hab Ha Hb <-.
  pose proof (round_trip_all a (num2note_Ok_range a name_a Ha)) as Hra.
  pose proof (round_trip_all b (num2note_Ok_range b name_a Hb)) as Hrb.
  unfold round_trip in Hra, Hrb. rewrite Ha in Hra. rewrite Hb in Hrb.
  rewrite bind_Ok in Hra, Hrb.
  destruct (note2num name_a) as [k|]; [|done].
  apply bool_decide_eq_true_1 in Hra, Hrb. congruence.
Qed.

Lemma num2note_inj_witness : "C5" ≠ "C#5".
Proof.
  apply (num2note_inj 60 61 "C5" "C#5"); [lia|vm_compute; reflexivity..].
Defined.

(** X24: the names that [num2note] gives have two to four characters and
    never a flat: the second character is a sharp or the octave begins
    there. *)
Theorem num2note_sharps_only (k : Z) (name : string) :
  num2note k = Ok name →
  (2 ≤ String.length name ≤ 4)%nat
  ∧ String.get 1 name ≠ Some "b"%char
  ∧ ∃ letter, String.get 0 name = Some letter
              ∧ String letter "" ∈ ["C"; "D"; "E"; "F"; "G"; "A"; "B"].
Proof.
  intros Hname.
  pose (shape := λ name : string,
          ((2 <=? String.length name) && (String.length name <=? 4))%nat
          && negb (bool_decide (String.get 1 name = Some "b"%char))
          && match String.get 0 name with
             | Some letter =>
                 bool_decide (String letter "" ∈ ["C"; "D"; "E"; "F"; "G"; "A"; "B"])
             | None => false
             end).
  assert (forallb (λ k, match num2note k with
                        | Ok name => shape name
                        | Raise _ => false
                        end) (seqZ 0 128) = true) as Hall by (by vm_compute).
  rewrite forallb_forall in Hall.
  specialize (Hall k). rewrite Hname in Hall.
  assert (shape name = true) as Hshape.
  { apply Hall, list_elem_of_In, elem_of_seqZ.
    apply num2note_Ok_range in Hname. lia. }
  unfold shape in Hshape.
  apply andb_prop in Hshape as [[[Hlo Hhi]%andb_prop Hflat]%andb_prop Hletter].
  apply Nat.leb_le in Hlo, Hhi.
  apply negb_true_iff, bool_decide_eq_false_1 in Hflat.
  split_and!; [done..|].
  destruct (String.get 0 name) as [letter|]; [|done].
  exists letter. split; [done|]. by apply bool_decide_eq_true_1 in Hletter.
Qed.

Lemma num2note_sharps_only_witness :
  (2 ≤ String.length "A#3" ≤ 4)%nat ∧ String.get 1 "A#3" ≠ Some "b"%char.
Proof.
  destruct (num2note_sharps_only 46 "A#3") as (Hlen & Hflat & _).
  - vm_compute. reflexivity.
  - split; [exact Hlen|exact Hflat].
Defined.

Lemma str_from_0 (s : string) : Py.str_from s 0 = s.
Proof. by destruct s. Qed.

Lemma note2num_num_two (c d : ascii) (rest : string) :
  note2num_num (String c (String d rest))
  = if bool_decide (d = "#"%char ∨ d = "b"%char) then
      octave ← Py.int rest;
      base ← Py.dict_getitem
                (list_to_map [("C", 0); ("D", 2); ("E", 4); ("F", 5); ("G", 7);
                              ("A", 9); ("B", 11)]) (String c "");
      mret (base + 12 * octave + (if bool_decide (d = "#"%char) then 1 else -1))
    else
      octave ← Py.int (String d rest);
      base ← Py.dict_getitem
                (list_to_map [("C", 0); ("D", 2); ("E", 4); ("F", 5); ("G", 7);
                              ("A", 9); ("B", 11)]) (String c "");
      mret (base + 12 * octave).
Proof.
  unfold note2num_num. cbv zeta.
  change (Py.str_getitem (String c (String d rest)) 0) with (Ok (String c "")).
  change (Py.str_getitem (String c (String d rest)) 1) with (Ok (String d "")).
  rewrite !bind_Ok.
  change (Py.str_from (String c (String d rest)) 2) with (Py.str_from rest 0).
  change (Py.str_from (String c (String d rest)) 1)
    with (Py.str_from (String d rest) 0).
  rewrite !str_from_0.
  assert (bool_decide (String d "" ∈ ["#"; "b"])
          = bool_decide (d = "#"%char ∨ d = "b"%char)) as ->.
  { apply bool_decide_ext. rewrite !elem_of_cons, elem_of_nil.
    split; [intros [[= ->]|[[= ->]|[]]]; tauto|intros [->| ->]; tauto]. }
  case_bool_decide as Hd.
  - destruct (Py.int rest) as [octave|]; [|done]. rewrite !bind_Ok. cbn beta iota.
    destruct (Py.dict_getitem _ _) as [base|]; [|done]. rewrite !bind_Ok.
    destruct Hd as [->| ->]; repeat case_bool_decide; try done;
      cbn; f_equal; lia.
  - destruct (Py.int (String d rest)) as [octave|]; [|done].
    rewrite !bind_Ok. cbn beta iota.
    destruct (Py.dict_getitem _ _) as [base|]; [|done]. rewrite !bind_Ok.
    repeat case_bool_decide; try done. cbn. f_equal. lia.
Qed.

(** X25: a sharp after the letter adds 1 to the number that the name
    computes and a flat takes 1 off it, before the range check. *)
Theorem accidentals (letter : ascii) (rest : string) (k : Z) :
  note2num_num (String letter rest) = Ok k →
  (∀ r, rest ≠ String "#" r) →
  (∀ r, rest ≠ String "b" r) →
  note2num_num (String letter (String "#" rest)) = Ok (k + 1)
  ∧ note2num_num (String letter (String "b" rest)) = Ok (k - 1).
Proof.
  intros Hk Hsharp Hflat.
  destruct rest as [|d rest]; [done|].
  rewrite note2num_num_two in Hk. rewrite !note2num_num_two.
  rewrite bool_decide_eq_false_2 in Hk.
  2:{ intros [->| ->]; [by apply (Hsharp rest)|by apply (Hflat rest)]. }
  rewrite (bool_decide_eq_true_2 ("#"%char = "#"%char ∨ _)) by (by left).
  rewrite (bool_decide_eq_true_2 ("b"%char = "#"%char ∨ _)) by (by right).
  destruct (Py.int (String d rest)) as [octave|]; [|done]. rewrite bind_Ok in Hk.
  rewrite !bind_Ok.
  destruct (Py.dict_getitem _ _) as [base|]; [|done]. rewrite bind_Ok in Hk.
  rewrite !bind_Ok. injection Hk as <-.
  split; repeat case_bool_decide; try done; cbn; f_equal; lia.
Qed.

Lemma accidentals_witness :
  note2num_num "D#4" = Ok (50 + 1) ∧ note2num_num "Db4" = Ok (50 - 1).
Proof.
  apply (accidentals "D" "4" 50).
  - vm_compute. reflexivity.
  - discriminate.
  - discriminate.
Defined.

(** X26: [note2num] ends in an [IndexError] exactly on the names of fewer
    than two characters. *)
Theorem note2num_IndexError (note : string) :
  note2num note = Raise IndexError ↔ (String.length note < 2)%nat.
Proof.
  destruct note as [|c [|d rest]]; [by split; [cbn; lia|]..|].
  split; [|cbn; lia]. unfold note2num. rewrite note2num_num_two.
  intros H. exfalso. revert H. case_bool_decide.
  - destruct (Py.int rest) as [octave|e] eqn:Hint;
      [|apply int_Raise in Hint as ->; done].
    rewrite !bind_Ok.
    destruct (Py.dict_getitem _ _) as [base|e] eqn:Hdict;
      [|apply dict_getitem_Raise in Hdict as ->; done].
    rewrite !bind_Ok. by case_bool_decide.
  - destruct (Py.int (String d rest)) as [octave|e] eqn:Hint;
      [|apply int_Raise in Hint as ->; done].
    rewrite !bind_Ok.
    destruct (Py.dict_getitem _ _) as [base|e] eqn:Hdict;
      [|apply dict_getitem_Raise in Hdict as ->; done].
    rewrite !bind_Ok. by case_bool_decide.
Qed.

(** X27: a [KeyError] of [note2num] names the first character of the note
    name, which is then none of the seven letters; on a name that begins
    with one of them there is no [KeyError]. *)
Theorem note2num_KeyError (note key : string) :
  note2num note = Raise (KeyError key) →
  ∃ c rest, note = String c rest
            ∧ key = String c ""
            ∧ key ∉ ["C"; "D"; "E"; "F"; "G"; "A"; "B"].
Proof.
  destruct note as [|c [|d rest]]; [done..|].
  intros H. exists c, (String d rest). split; [done|].
  assert (Py.dict_getitem
            (list_to_map [("C", 0); ("D", 2); ("E", 4); ("F", 5); ("G", 7);
                          ("A", 9); ("B", 11)]) (String c "")
          = Raise (KeyError key)) as Hdict.
  { revert H. unfold note2num. rewrite note2num_num_two. case_bool_decide.
    - destruct (Py.int rest) as [octave|e] eqn:Hint;
        [|apply int_Raise in Hint as ->; done].
      rewrite !bind_Ok. destruct (Py.dict_getitem _ _) as [base|e]; [|done].
      rewrite !bind_Ok. by case_bool_decide.
    - destruct (Py.int (String d rest)) as [octave|e] eqn:Hint;
        [|apply int_Raise in Hint as ->; done].
      rewrite !bind_Ok. destruct (Py.dict_getitem _ _) as [base|e]; [|done].
      rewrite !bind_Ok. by case_bool_decide. }
  pose proof (dict_getitem_Raise _ _ _ Hdict) as [= ->]. split; [done|].
  intros Hin. rewrite !elem_of_cons, elem_of_nil in Hin.
  destruct Hin as [Hc|[Hc|[Hc|[Hc|[Hc|[Hc|[Hc|[]]]]]]]];
    injection Hc as ->; vm_compute in Hdict; discriminate.
Qed.

Lemma note2num_KeyError_witness :
  ∃ c rest, "h3" = String c rest
            ∧ "h" = String c ""
            ∧ "h" ∉ ["C"; "D"; "E"; "F"; "G"; "A"; "B"].
Proof. apply (note2num_KeyError "h3" "h"). vm_compute. reflexivity. Defined.

(** ** Full positions and the order of the notes *)

Lemma placement_of_string_Permutation (p q : NeckPosition) (i : Z) :
  NoDup (strings p) →
  placements p ≡ₚ placements q →
  placement_of_string p i = placement_of_string q i.
Proof.
  intros Hnd Hperm.
  assert (strings p ≡ₚ strings q) as Hstrings by (unfold strings; by rewrite Hperm).
  destruct (placement_of_string_cases p i) as [(Hi & Hin & Hs)|[Hi Hs]];
    destruct (placement_of_string_cases q i) as [(Hi' & Hin' & Hs')|[Hi' Hs']].
  - rewrite <- Hperm in Hin'.
    apply list_elem_of_lookup in Hin as [j Hj], Hin' as [j' Hj'].
    assert (j = j') as <-; [|congruence].
    apply (NoDup_lookup (strings p) j j' i); [done|..];
      unfold strings; rewrite list_lookup_fmap.
    + rewrite Hj. cbn. by rewrite Hs.
    + rewrite Hj'. cbn. by rewrite Hs'.
  - rewrite Hstrings in Hi. done.
  - rewrite <- Hstrings in Hi'. done.
  - congruence.
Qed.

(** X28: the placements of the full position do not depend on the order of
    the notes: for a position with as many fingers as placements that plays
    no string twice, [get_full_position] returns the same placements before
    and after a sort. *)
Theorem get_full_position_sorted (self q : NeckPosition) (reverse : bool)
    (num_fingers : Z) :
  same_length self →
  NoDup (strings self) →
  sort_by_string self reverse = Ok q ∨ sort_by_fret self = Ok q
    ∨ sort_by_finger self = Ok q →
  ∃ full full_q,
    get_full_position self num_fingers = Ok full
    ∧ get_full_position q num_fingers = Ok full_q
    ∧ placements full_q = placements full.
Proof.
  intros Hlen Hnd Hq. do 2 eexists.
  split; [apply get_full_position_Ok|]. split; [apply get_full_position_Ok|].
  cbn [placements]. apply list_fmap_ext. intros _ i _.
  symmetry. apply placement_of_string_Permutation; [done|]. symmetry.
  destruct Hq as [[_ ->]%sort_by_string_inv
                 |[[_ ->]%sort_by_fret_inv|[_ ->]%sort_by_finger_inv]];
    by apply pairs_columns, sorted_Permutation.
Qed.

Lemma get_full_position_sorted_witness :
  ∃ full full_q,
    get_full_position (mkPosition [302; 100; 201] [2; 0; 1] None) 4 = Ok full
    ∧ get_full_position (mkPosition [100; 201; 302] [0; 1; 2] None) 4 = Ok full_q
    ∧ placements full_q = placements full.
Proof.
  apply (get_full_position_sorted (mkPosition [302; 100; 201] [2; 0; 1] None)
           (mkPosition [100; 201; 302] [0; 1; 2] None) false 4).
  - reflexivity.
  - apply NoDup_ListNoDup. vm_compute. repeat constructor; simpl; intuition discriminate.
  - left. vm_compute. reflexivity.
Defined.
